(** * TFTP packets: a shallow embedding of [tftp/details/packets.hpp]

    The five packet classes of [tftp::packets] (Request, Data,
    Acknowledgment, Error, OptionAcknowledgment), their constructors and
    their [serialize] member functions, followed by the properties of the
    wire format.

    Conventions of the embedding:
    - a [std::uint16_t] is a [Z] in [0, 65536); a [std::uint8_t] a [Z] in
      [0, 256); a [std::size_t] a [nat] (the sizes added up are sizes of
      objects held in memory, so the 64-bit wrap-around is out of reach);
    - a [std::string] is a [string] (a sequence of 8-bit characters), a
      [std::vector<T>] a [list];
    - [assert] is live (the build does not define [NDEBUG]): a failed
      assertion aborts the call;
    - the output iterator is an append-only byte sink, threaded through
      [serialize] by the writer monad [W]. *)

From Stdlib Require Import ZArith Lia Ascii String List.
From stdpp Require Import base list strings gmap.

Open Scope Z_scope.

(** ** Aborting computations and the byte sink *)

Inductive failure : Set :=
  | AssertionFailed   (* [assert(e)] with [e] false *)
  | OutOfRange.       (* [v[i]] with [i >= v.size()] *)

Inductive outcome (A : Type) : Type :=
  | Done (a : A)
  | Abort (why : failure).
Arguments Done {A} a.
Arguments Abort {A} why.

#[global] Instance outcome_ret : MRet outcome := fun A a => Done a.
#[global] Instance outcome_bind : MBind outcome :=
  fun A B k m => match m with Done a => k a | Abort why => Abort why end.

(** [assert(c)] inside a constructor. *)
Definition cpp_assert (c : bool) : outcome unit :=
  if c then Done tt else Abort AssertionFailed.

(** [v[Idx]] outside [serialize]: reading past the end is undefined in C++,
    an abort here. *)
Definition vector_at {A : Type} (v : list A) (Idx : nat) : outcome A :=
  match v !! Idx with
  | Some x => Done x
  | None => Abort OutOfRange
  end.

(** A computation that appends bytes to the sink [It] and may abort. The
    state is the sequence of bytes written so far. *)
Definition W (A : Type) : Type := list Z -> outcome (A * list Z).

#[global] Instance W_ret : MRet W := fun A a s => Done (a, s).
#[global] Instance W_bind : MBind W :=
  fun A B k m s => match m s with Done (a, s') => k a s' | Abort why => Abort why end.

(** [*(It++) = b]. *)
Definition put (b : Z) : W unit := fun s => Done (tt, s ++ [b]).

(** [assert(c)] inside [serialize]. *)
Definition assertW (c : bool) : W unit :=
  fun s => if c then Done (tt, s) else Abort AssertionFailed.

(** [v[i]]: reading past the end is undefined in C++, an abort here. *)
Definition at_index {A : Type} (v : list A) (i : nat) : W A :=
  fun s => match v !! i with Some x => Done (x, s) | None => Abort OutOfRange end.

(** The bytes a [serialize] call leaves in an empty sink, with its return
    value. *)
Definition run {A : Type} (m : W A) : outcome (A * list Z) := m [].

(** ** Machine integers and the host byte order *)

(** [static_cast<std::uint8_t>(x)] for an integer [x]. *)
Definition to_u8 (x : Z) : Z := Z.land x 255.

(** [static_cast<std::uint8_t>(c)] for a [char] [c]: the byte itself. *)
Definition char_to_u8 (c : ascii) : Z := Z.of_N (N_of_ascii c).

Inductive byte_order : Set := LittleEndian | BigEndian.

Definition bswap16 (x : Z) : Z :=
  Z.lor (Z.shiftl (Z.land x 255) 8) (Z.land (Z.shiftr x 8) 255).

(** [htons] of <arpa/inet.h> (<WinSock2.h>): host to network order of a
    16-bit value. It swaps the two bytes on a little-endian host and is the
    identity on a big-endian one. *)
Definition htons (host : byte_order) (x : Z) : Z :=
  match host with
  | LittleEndian => bswap16 x
  | BigEndian => x
  end.

(** [for (auto Byte : Str) *(It++) = static_cast<std::uint8_t>(Byte);] *)
Fixpoint put_chars (Str : string) : W unit :=
  match Str with
  | EmptyString => mret tt
  | String Byte rest => put (char_to_u8 Byte);; put_chars rest
  end.

(** [for (auto Byte : Buffer) *(It++) = Byte;] over a byte vector. *)
Fixpoint put_bytes (Buffer : list Z) : W unit :=
  match Buffer with
  | [] => mret tt
  | Byte :: rest => put Byte;; put_bytes rest
  end.

(** ** [namespace types], [namespace errors] *)

Module types.
Definition ReadRequest : Z := 1.
Definition WriteRequest : Z := 2.
Definition DataPacket : Z := 3.
Definition AcknowledgmentPacket : Z := 4.
Definition ErrorPacket : Z := 5.
Definition OptionAcknowledgmentPacket : Z := 6.
End types.

Module errors.
Definition NotDefined : Z := 0.
Definition FileNotFound : Z := 1.
Definition AccessViolation : Z := 2.
Definition DiskFull : Z := 3.
Definition IllegalOperation : Z := 4.
Definition UnknownTransferID : Z := 5.
Definition FileAlreadyExists : Z := 6.
Definition NoSuchUser : Z := 7.
Definition WrongBlocksize : Z := 8.
End errors.

(** [sizeof(std::uint16_t)] *)
Definition sizeof_u16 : nat := 2.

(** ** [class Request] *)

Module Request.

Record t : Type := mk {
  Type_ : Z;
  Filename : string;
  Mode : string;
  OptionsNames : list string;
  OptionsValues : list string
}.

(** [Request(types::Type, std::string_view, std::string_view)] *)
Definition new_view (Type' : Z) (Filename Mode : string) : outcome t :=
  cpp_assert ((Type' =? types.ReadRequest) || (Type' =? types.WriteRequest));;
  mret (mk Type' Filename Mode [] []).

(** [Request(types::Type, std::string &&, std::string &&)] *)
Definition new_move (Type' : Z) (Filename Mode : string) : outcome t :=
  cpp_assert ((Type' =? types.ReadRequest) || (Type' =? types.WriteRequest));;
  mret (mk Type' Filename Mode [] []).

(** [Request(types::Type, std::string_view, std::string_view,
    const std::vector<std::string> &, const std::vector<std::string> &)]:
    delegates to [new_view], then assigns the two vectors. *)
Definition new_view_options (Type' : Z) (Filename Mode : string)
    (OptionsNames OptionsValues : list string) : outcome t :=
  this ← new_view Type' Filename Mode;
  mret (mk (Type_ this) (Request.Filename this) (Request.Mode this)
           OptionsNames OptionsValues).

(** [Request(types::Type, std::string &&, std::string &&,
    std::vector<std::string> &&, std::vector<std::string> &&)] *)
Definition new_move_options (Type' : Z) (Filename Mode : string)
    (OptionsNames OptionsValues : list string) : outcome t :=
  cpp_assert ((Type' =? types.ReadRequest) || (Type' =? types.WriteRequest));;
  mret (mk Type' Filename Mode OptionsNames OptionsValues).

(** The option loop of [serialize]:
    [for (std::size_t Idx = 0; Idx != OptionsNames.size(); ++Idx)].
    [todo] counts the iterations left, [OptionsNames.size() - Idx]. *)
Fixpoint options_loop (this : t) (todo Idx OptionsSize : nat) : W nat :=
  match todo with
  | O => mret OptionsSize
  | S todo' =>
      Name ← at_index (OptionsNames this) Idx;
      put_chars Name;;
      put 0;;
      Value ← at_index (OptionsValues this) Idx;
      put_chars Value;;
      put 0;;
      options_loop this todo' (S Idx)
        (OptionsSize + (String.length Name + String.length Value + 2))%nat
  end.

Definition serialize (host : byte_order) (this : t) : W nat :=
  assertW (length (OptionsNames this) =? length (OptionsValues this))%nat;;
  put (to_u8 (Z.shiftr (htons host (Type_ this)) 0));;
  put (to_u8 (Z.shiftr (htons host (Type_ this)) 8));;
  put_chars (Filename this);;
  put 0;;
  put_chars (Mode this);;
  put 0;;
  OptionsSize ← options_loop this (length (OptionsNames this)) 0 0;
  mret (sizeof_u16 + String.length (Filename this) + String.length (Mode this)
        + OptionsSize + 2)%nat.

(** The getters; a [std::string_view] over a member is the string itself. *)
Definition getType (this : t) : Z := Type_ this.

Definition getFilename (this : t) : string := Filename this.

Definition getMode (this : t) : string := Mode this.

(** [getOptionName(Idx)] reads [OptionsNames[Idx]], with no bounds check. *)
Definition getOptionName (this : t) (Idx : nat) : outcome string :=
  vector_at (OptionsNames this) Idx.

(** [getOptionValue(Idx)] reads [OptionsValues[Idx]], with no bounds check. *)
Definition getOptionValue (this : t) (Idx : nat) : outcome string :=
  vector_at (OptionsValues this) Idx.

End Request.

(** ** [class Data] *)

Module Data.

Record t : Type := mk {
  Block : Z;
  DataBuffer : list Z
}.

(** [std::uint16_t Type_ = types::DataPacket;] *)
Definition Type_ (this : t) : Z := types.DataPacket.

(** [Data(std::uint16_t, const std::vector<std::uint8_t> &)] *)
Definition new_copy (Block : Z) (Buffer : list Z) : outcome t :=
  let this := mk Block Buffer in
  cpp_assert (1 <=? Block);;
  cpp_assert ((0 <=? length Buffer)%nat && (length Buffer <=? 512)%nat);;
  mret this.

(** [Data(std::uint16_t, std::vector<std::uint8_t> &&)] *)
Definition new_move (Block : Z) (Buffer : list Z) : outcome t :=
  cpp_assert (1 <=? Block);;
  cpp_assert ((0 <=? length Buffer)%nat && (length Buffer <=? 512)%nat);;
  mret (mk Block Buffer).

Definition serialize (host : byte_order) (this : t) : W nat :=
  put (to_u8 (Z.shiftr (htons host (Type_ this)) 0));;
  put (to_u8 (Z.shiftr (htons host (Type_ this)) 8));;
  put (to_u8 (Z.shiftr (htons host (Block this)) 0));;
  put (to_u8 (Z.shiftr (htons host (Block this)) 8));;
  put_bytes (DataBuffer this);;
  mret (sizeof_u16 + sizeof_u16 + length (DataBuffer this))%nat.

Definition getType (this : t) : Z := Type_ this.

Definition getBlock (this : t) : Z := Block this.

Definition getData (this : t) : list Z := DataBuffer this.

End Data.

(** ** [class Acknowledgment] *)

Module Acknowledgment.

Record t : Type := mk { Block : Z }.

(** [std::uint16_t Type_ = types::AcknowledgmentPacket;] *)
Definition Type_ (this : t) : Z := types.AcknowledgmentPacket.

(** [explicit Acknowledgment(std::uint16_t)] *)
Definition new (Block : Z) : outcome t :=
  cpp_assert (1 <=? Block);;
  mret (mk Block).

Definition serialize (host : byte_order) (this : t) : W nat :=
  put (to_u8 (Z.shiftr (htons host (Type_ this)) 0));;
  put (to_u8 (Z.shiftr (htons host (Type_ this)) 8));;
  put (to_u8 (Z.shiftr (htons host (Block this)) 0));;
  put (to_u8 (Z.shiftr (htons host (Block this)) 8));;
  mret (sizeof_u16 + sizeof_u16)%nat.

Definition getType (this : t) : Z := Type_ this.

Definition getBlock (this : t) : Z := Block this.

End Acknowledgment.

(** ** [class Error] *)

Module Error.

Record t : Type := mk {
  ErrorCode : Z;
  ErrorMessage : string
}.

(** [std::uint16_t Type_ = types::ErrorPacket;] *)
Definition Type_ (this : t) : Z := types.ErrorPacket.

(** [Error(std::uint16_t, std::string_view)] *)
Definition new_view (ErrorCode : Z) (ErrorMessage : string) : outcome t :=
  cpp_assert ((0 <=? ErrorCode) && (ErrorCode <=? 8));;
  mret (mk ErrorCode ErrorMessage).

(** [Error(std::uint16_t, std::string &&)] *)
Definition new_move (ErrorCode : Z) (ErrorMessage : string) : outcome t :=
  cpp_assert ((0 <=? ErrorCode) && (ErrorCode <=? 8));;
  mret (mk ErrorCode ErrorMessage).

Definition serialize (host : byte_order) (this : t) : W nat :=
  put (to_u8 (Z.shiftr (htons host (Type_ this)) 0));;
  put (to_u8 (Z.shiftr (htons host (Type_ this)) 8));;
  put (to_u8 (Z.shiftr (htons host (ErrorCode this)) 0));;
  put (to_u8 (Z.shiftr (htons host (ErrorCode this)) 8));;
  put_chars (ErrorMessage this);;   (* [*(It++) = Byte]: the sink converts *)
  put 0;;
  mret (sizeof_u16 + sizeof_u16 + String.length (ErrorMessage this) + 1)%nat.

Definition getType (this : t) : Z := Type_ this.

Definition getErrorCode (this : t) : Z := ErrorCode this.

Definition getErrorMessage (this : t) : string := ErrorMessage this.

End Error.

(** ** [std::unordered_map<std::string, std::string>] *)

(** What [serialize] observes of a hash table: its entries in the order the
    iterators visit them, and no key twice. The order is whatever the table
    has; nothing below depends on which one it is. *)
Module unordered_map.

Record t : Type := mk {
  entries : list (string * string);
  entries_unique : NoDup entries.*1
}.

(** The mapping the table stands for. *)
Definition to_gmap (m : t) : gmap string string := list_to_map (entries m).

(** A table with the given entries, their keys checked to be distinct. *)
Definition of_list (es : list (string * string))
    (distinct : Is_true (bool_decide (NoDup es.*1))) : t :=
  mk es (bool_decide_unpack _ distinct).

(** [find(Key)]: the value stored under [Key], if there is one. *)
Fixpoint find_in (Key : string) (es : list (string * string)) : option string :=
  match es with
  | [] => None
  | (k, v) :: rest => if decide (k = Key) then Some v else find_in Key rest
  end.

Definition find (m : t) (Key : string) : option string := find_in Key (entries m).

(** [count(Key)]: the number of entries with that key, 0 or 1. *)
Definition count (m : t) (Key : string) : nat :=
  match find m Key with
  | Some _ => 1
  | None => 0
  end.

(** [at(Key)]: the value, or [std::out_of_range] thrown. *)
Definition at_key (m : t) (Key : string) : outcome string :=
  match find m Key with
  | Some v => Done v
  | None => Abort OutOfRange
  end.

End unordered_map.

(** ** [class OptionAcknowledgment] *)

Module OptionAcknowledgment.

Record t : Type := mk { Options : unordered_map.t }.

(** [std::uint16_t Type_ = types::OptionAcknowledgmentPacket;] *)
Definition Type_ (this : t) : Z := types.OptionAcknowledgmentPacket.

(** [OptionAcknowledgment(std::unordered_map<std::string, std::string>)] *)
Definition new (Options : unordered_map.t) : outcome t := mret (mk Options).

(** [for (const auto &[Key, Value] : Options)], over the entries still to
    be visited. *)
Fixpoint options_loop (todo : list (string * string)) (OptionsSize : nat) : W nat :=
  match todo with
  | [] => mret OptionsSize
  | (Key, Value) :: rest =>
      put_chars Key;;
      put 0;;
      put_chars Value;;
      put 0;;
      options_loop rest (OptionsSize + (String.length Key + String.length Value + 2))%nat
  end.

Definition serialize (host : byte_order) (this : t) : W nat :=
  put (to_u8 (Z.shiftr (htons host (Type_ this)) 0));;
  put (to_u8 (Z.shiftr (htons host (Type_ this)) 8));;
  OptionsSize ← options_loop (unordered_map.entries (Options this)) 0;
  mret (sizeof_u16 + OptionsSize)%nat.

Definition getType (this : t) : Z := Type_ this.

(** [bool hasOption(const std::string &)]: [Options.count(OptionName)]
    converted to [bool]. *)
Definition hasOption (this : t) (OptionName : string) : bool :=
  negb (unordered_map.count (Options this) OptionName =? 0)%nat.

(** [getOptionValue(const std::string &) const noexcept]: [Options.at],
    whose exception cannot leave a [noexcept] function: a missing name ends
    the program. *)
Definition getOptionValue (this : t) (OptionName : string) : outcome string :=
  unordered_map.at_key (Options this) OptionName.

End OptionAcknowledgment.

(** ** The five packets as one sum *)

(** The source has no common base class; [Packet] is the closed sum of the
    five classes, and [serialize] dispatches to the member function. *)
Inductive Packet : Type :=
  | PRequest (r : Request.t)
  | PData (d : Data.t)
  | PAcknowledgment (a : Acknowledgment.t)
  | PError (e : Error.t)
  | POptionAcknowledgment (o : OptionAcknowledgment.t).

Definition serialize (host : byte_order) (p : Packet) : W nat :=
  match p with
  | PRequest r => Request.serialize host r
  | PData d => Data.serialize host d
  | PAcknowledgment a => Acknowledgment.serialize host a
  | PError e => Error.serialize host e
  | POptionAcknowledgment o => OptionAcknowledgment.serialize host o
  end.

(** ** The wire format, as the specification words it *)

(** A 16-bit value in network order: high byte, then low byte. *)
Definition be16 (x : Z) : list Z := [x / 256; x mod 256].

(** The bytes of a string, in order. *)
Definition string_bytes (s : string) : list Z :=
  char_to_u8 <$> list_ascii_of_string s.

(** A string followed by its [0x00] terminator. *)
Definition cstring (s : string) : list Z := string_bytes s ++ [0].

(** One option: name, [0x00], value, [0x00]. *)
Definition option_bytes (o : string * string) : list Z :=
  cstring o.1 ++ cstring o.2.

(** [name bytes 0x00 value bytes 0x00] for each option, in the given order. *)
Definition options_bytes (os : list (string * string)) : list Z :=
  mjoin (option_bytes <$> os).

(** Σ over the options of [|name| + |value| + 2]. *)
Definition options_size (os : list (string * string)) : nat :=
  sum_list ((fun o => String.length o.1 + String.length o.2 + 2)%nat <$> os).

(** The options of a request, pairing the two vectors index by index. *)
Definition request_options (r : Request.t) : list (string * string) :=
  zip (Request.OptionsNames r) (Request.OptionsValues r).

(** The layout of each packet, for a given way [w16] of writing a 16-bit
    field on two bytes. *)
Section Layout.

Variable w16 : Z -> list Z.

Definition request_layout (r : Request.t) : list Z :=
  w16 (Request.Type_ r) ++ cstring (Request.Filename r) ++ cstring (Request.Mode r)
  ++ options_bytes (request_options r).

Definition data_layout (d : Data.t) : list Z :=
  w16 types.DataPacket ++ w16 (Data.Block d) ++ Data.DataBuffer d.

Definition acknowledgment_layout (a : Acknowledgment.t) : list Z :=
  w16 types.AcknowledgmentPacket ++ w16 (Acknowledgment.Block a).

Definition error_layout (e : Error.t) : list Z :=
  w16 types.ErrorPacket ++ w16 (Error.ErrorCode e) ++ cstring (Error.ErrorMessage e).

Definition option_acknowledgment_layout (o : OptionAcknowledgment.t) : list Z :=
  w16 types.OptionAcknowledgmentPacket
  ++ options_bytes (unordered_map.entries (OptionAcknowledgment.Options o)).

Definition layout (p : Packet) : list Z :=
  match p with
  | PRequest r => request_layout r
  | PData d => data_layout d
  | PAcknowledgment a => acknowledgment_layout a
  | PError e => error_layout e
  | POptionAcknowledgment o => option_acknowledgment_layout o
  end.

End Layout.

(** The wire format of the specification: every 16-bit field big-endian. *)
Definition wire : Packet -> list Z := layout be16.

(** The two bytes [serialize] writes for a 16-bit field [x]:
    [static_cast<std::uint8_t>(htons(x) >> 0)], then
    [static_cast<std::uint8_t>(htons(x) >> 8)]. *)
Definition u16_bytes (host : byte_order) (x : Z) : list Z :=
  [to_u8 (Z.shiftr (htons host x) 0); to_u8 (Z.shiftr (htons host x) 8)].

(** The size the specification announces for each variant. *)
Definition wire_size (p : Packet) : nat :=
  match p with
  | PRequest r =>
      2 + String.length (Request.Filename r) + String.length (Request.Mode r) + 2
      + options_size (request_options r)
  | PData d => 4 + length (Data.DataBuffer d)
  | PAcknowledgment _ => 4
  | PError e => String.length (Error.ErrorMessage e) + 5
  | POptionAcknowledgment o =>
      2 + options_size (unordered_map.entries (OptionAcknowledgment.Options o))
  end%nat.

(** ** The invariants of the data model (specification, section 3) *)

Definition is_u16 (x : Z) : Prop := 0 <= x < 65536.
Definition is_u8 (x : Z) : Prop := 0 <= x < 256.

(** No embedded null byte. *)
Definition no_null (s : string) : Prop := 0 ∉ string_bytes s.

(** Every character is a 7-bit one. *)
Definition is_ascii (s : string) : Prop := Forall (fun b => b < 128) (string_bytes s).

(** A string of the data model: ASCII, never containing the null byte. *)
Definition text (s : string) : Prop := is_ascii s ∧ no_null s.

Definition request_invariants (r : Request.t) : Prop :=
  (Request.Type_ r = types.ReadRequest ∨ Request.Type_ r = types.WriteRequest)
  ∧ (Request.Filename r ≠ EmptyString ∧ text (Request.Filename r))
  ∧ (Request.Mode r ≠ EmptyString ∧ text (Request.Mode r))
  ∧ NoDup (Request.OptionsNames r)
  ∧ Forall text (Request.OptionsNames r)
  ∧ Forall text (Request.OptionsValues r).

Definition data_invariants (d : Data.t) : Prop :=
  1 <= Data.Block d ∧ (length (Data.DataBuffer d) <= 512)%nat.

Definition acknowledgment_invariants (a : Acknowledgment.t) : Prop :=
  1 <= Acknowledgment.Block a.

Definition error_invariants (e : Error.t) : Prop :=
  0 <= Error.ErrorCode e <= 8 ∧ text (Error.ErrorMessage e).

Definition option_acknowledgment_invariants (o : OptionAcknowledgment.t) : Prop :=
  Forall (fun kv => text kv.1 ∧ text kv.2)
         (unordered_map.entries (OptionAcknowledgment.Options o)).

Definition invariants (p : Packet) : Prop :=
  match p with
  | PRequest r => request_invariants r
  | PData d => data_invariants d
  | PAcknowledgment a => acknowledgment_invariants a
  | PError e => error_invariants e
  | POptionAcknowledgment o => option_acknowledgment_invariants o
  end.

#[global] Instance invariants_dec (p : Packet) : Decision (invariants p).
Proof.
  destruct p; simpl;
    unfold request_invariants, data_invariants, acknowledgment_invariants,
      error_invariants, option_acknowledgment_invariants, text, is_ascii, no_null;
    apply _.
Defined.

(** The two option vectors have one length: only then do they hold a
    sequence of (name, value) pairs. No constructor establishes it. *)
Definition paired (r : Request.t) : Prop :=
  length (Request.OptionsNames r) = length (Request.OptionsValues r).

(** A value of the data model: the 16-bit fields and the payload bytes are in
    the range of their C++ type, and the options of a request are pairs. *)
Definition typed (p : Packet) : Prop :=
  match p with
  | PRequest r => is_u16 (Request.Type_ r) ∧ paired r
  | PData d => is_u16 (Data.Block d) ∧ Forall is_u8 (Data.DataBuffer d)
  | PAcknowledgment a => is_u16 (Acknowledgment.Block a)
  | PError e => is_u16 (Error.ErrorCode e)
  | POptionAcknowledgment _ => True
  end.

(** The options of a packet lie in two vectors of one length (a condition on
    requests only). *)
Definition parallel_options (p : Packet) : Prop :=
  match p with
  | PRequest r => paired r
  | _ => True
  end.

Definition well_formed (p : Packet) : Prop := typed p ∧ invariants p.

(** Equality of packets, the option collections compared as mappings. *)
Definition packet_eq (p q : Packet) : Prop :=
  match p, q with
  | PRequest r, PRequest r' =>
      Request.Type_ r = Request.Type_ r'
      ∧ Request.Filename r = Request.Filename r'
      ∧ Request.Mode r = Request.Mode r'
      ∧ (list_to_map (request_options r) : gmap string string)
        = list_to_map (request_options r')
  | PData d, PData d' => d = d'
  | PAcknowledgment a, PAcknowledgment a' => a = a'
  | PError e, PError e' => e = e'
  | POptionAcknowledgment o, POptionAcknowledgment o' =>
      unordered_map.to_gmap (OptionAcknowledgment.Options o)
      = unordered_map.to_gmap (OptionAcknowledgment.Options o')
  | _, _ => False
  end.

(** ** The decoder of the specification (sections 4.3, 4.4 and 7) *)

(** The header declares default constructors "for parsing functions only",
    and holds no parsing function. The definitions of this part follow the
    decoding algorithm of the specification, step by step. *)

(** Modelled from the spec: the [DecodingError] taxonomy of section 7 (the
    decoder is not part of [packets.hpp]). *)
Inductive DecodingError : Set :=
  | UnknownOpcode
  | TruncatedPacket
  | MissingTerminator
  | TrailingBytes
  | InvalidMode
  | InvalidErrorCode
  | OversizedPayload
  | DuplicateOption.

(** Modelled from the spec: what [decode] hands back when it produces no
    packet. Step 3 of the algorithm constructs the value with a validating
    constructor and calls a violation found there an internal-consistency
    bug, which is [InternalInconsistency]. *)
Inductive decode_failure : Set :=
  | Decoding (e : DecodingError)
  | InternalInconsistency.

(** Modelled from the spec: [Result<Packet, DecodingError>] of section 6,
    the outcome of a decoding step. *)
Inductive result (E A : Type) : Type :=
  | Ok (a : A)
  | Err (e : E).
Arguments Ok {E A} a.
Arguments Err {E A} e.

#[global] Instance result_ret {E} : MRet (result E) := fun A a => Ok a.
#[global] Instance result_bind {E} : MBind (result E) :=
  fun A B k m => match m with Ok a => k a | Err e => Err e end.

(** Modelled from the spec: the validating constructor of section 4.1, which
    yields the value or fails on a violated invariant of section 3. *)
Definition construct (p : Packet) : result decode_failure Packet :=
  if decide (invariants p) then Ok p else Err InternalInconsistency.

(** Modelled from the spec: the character a wire byte stands for, when the
    decoder rebuilds a string. *)
Definition u8_to_char (b : Z) : ascii := ascii_of_N (Z.to_N b).

(** Modelled from the spec: "scan remaining bytes for the next null byte to
    bound" a string; [None] when the buffer ends before a terminator. The
    result is the string and the bytes after its terminator. *)
Fixpoint take_cstring (bs : list Z) : option (string * list Z) :=
  match bs with
  | [] => None
  | b :: rest =>
      if b =? 0 then Some (EmptyString, rest)
      else match take_cstring rest with
           | Some (s, rest') => Some (String (u8_to_char b) s, rest')
           | None => None
           end
  end.

(** Modelled from the spec: [parse_pairs] of section 4.4, "consuming the
    buffer greedily two null-terminated strings at a time" until it is
    exhausted; a fragment without terminator is [MissingTerminator]. Each
    round consumes at least two bytes, so [fuel] rounds are enough for a
    buffer of [fuel] bytes. *)
Fixpoint parse_pairs_rounds (fuel : nat) (bs : list Z)
    : result decode_failure (list (string * string)) :=
  match bs with
  | [] => Ok []
  | _ :: _ =>
      match fuel with
      | O => Err (Decoding MissingTerminator)
      | S fuel' =>
          match take_cstring bs with
          | None => Err (Decoding MissingTerminator)
          | Some (name, rest) =>
              match take_cstring rest with
              | None => Err (Decoding MissingTerminator)
              | Some (value, rest') =>
                  pairs ← parse_pairs_rounds fuel' rest';
                  mret ((name, value) :: pairs)
              end
          end
      end
  end.

Definition parse_pairs (bs : list Z) : result decode_failure (list (string * string)) :=
  parse_pairs_rounds (length bs) bs.

(** Modelled from the spec: the mode is validated "case-insensitively
    against the known transfer-mode names" netascii and octet, any other
    one being rejected; [to_lower] maps A..Z to a..z. *)
Definition to_lower (c : ascii) : ascii :=
  let n := N_of_ascii c in
  if ((65 <=? n) && (n <=? 90))%N then ascii_of_N (n + 32) else c.

(** Modelled from the spec: a mode name with its letters in lower case. *)
Fixpoint lower (s : string) : string :=
  match s with
  | EmptyString => EmptyString
  | String c rest => String (to_lower c) (lower rest)
  end.

(** Modelled from the spec: the known transfer-mode names. *)
Definition known_mode (m : string) : Prop :=
  lower m = "netascii"%string ∨ lower m = "octet"%string.

#[global] Instance known_mode_dec (m : string) : Decision (known_mode m) :=
  or_dec _ _.

(** Modelled from the spec: the Request branch of step 2. *)
Definition decode_request (opcode : Z) (bs : list Z) : result decode_failure Packet :=
  match take_cstring bs with
  | None => Err (Decoding MissingTerminator)
  | Some (filename, bs1) =>
      match take_cstring bs1 with
      | None => Err (Decoding MissingTerminator)
      | Some (mode, bs2) =>
          if decide (known_mode mode) then
            pairs ← parse_pairs bs2;
            if decide (NoDup pairs.*1)
            then construct (PRequest (Request.mk opcode filename mode pairs.*1 pairs.*2))
            else Err (Decoding DuplicateOption)
          else Err (Decoding InvalidMode)
      end
  end.

(** Modelled from the spec: the Data branch. *)
Definition decode_data (bs : list Z) : result decode_failure Packet :=
  match bs with
  | hi :: lo :: payload =>
      if (length payload <=? 512)%nat
      then construct (PData (Data.mk (hi * 256 + lo) payload))
      else Err (Decoding OversizedPayload)
  | _ => Err (Decoding TruncatedPacket)
  end.

(** Modelled from the spec: the Acknowledgment branch, exactly four bytes. *)
Definition decode_acknowledgment (bs : list Z) : result decode_failure Packet :=
  match bs with
  | [hi; lo] => construct (PAcknowledgment (Acknowledgment.mk (hi * 256 + lo)))
  | _ :: _ :: _ :: _ => Err (Decoding TrailingBytes)
  | _ => Err (Decoding TruncatedPacket)
  end.

(** Modelled from the spec: the Error branch. *)
Definition decode_error (bs : list Z) : result decode_failure Packet :=
  match bs with
  | hi :: lo :: rest =>
      let code := hi * 256 + lo in
      if (0 <=? code) && (code <=? 8) then
        match take_cstring rest with
        | None => Err (Decoding MissingTerminator)
        | Some (message, []) => construct (PError (Error.mk code message))
        | Some (_, _ :: _) => Err (Decoding TrailingBytes)
        end
      else Err (Decoding InvalidErrorCode)
  | _ => Err (Decoding TruncatedPacket)
  end.

(** Modelled from the spec: the OptionAcknowledgment branch. *)
Definition decode_option_acknowledgment (bs : list Z) : result decode_failure Packet :=
  pairs ← parse_pairs bs;
  match decide (NoDup pairs.*1) with
  | left unique =>
      construct (POptionAcknowledgment
                   (OptionAcknowledgment.mk (unordered_map.mk pairs unique)))
  | right _ => Err (Decoding DuplicateOption)
  end.

(** Modelled from the spec: [decode], steps 1 and 2: the big-endian opcode
    of the first two bytes selects the branch. *)
Definition decode (bs : list Z) : result decode_failure Packet :=
  match bs with
  | hi :: lo :: rest =>
      let opcode := hi * 256 + lo in
      if (opcode =? types.ReadRequest) || (opcode =? types.WriteRequest)
      then decode_request opcode rest
      else if opcode =? types.DataPacket then decode_data rest
      else if opcode =? types.AcknowledgmentPacket then decode_acknowledgment rest
      else if opcode =? types.ErrorPacket then decode_error rest
      else if opcode =? types.OptionAcknowledgmentPacket
      then decode_option_acknowledgment rest
      else Err (Decoding UnknownOpcode)
  | _ => Err (Decoding TruncatedPacket)
  end.

(** The mode of a request is one the decoder knows (a condition on requests
    only). *)
Definition accepted_mode (p : Packet) : Prop :=
  match p with
  | PRequest r => known_mode (Request.Mode r)
  | _ => True
  end.

(** Neither string of an option holds a null byte. *)
Definition pair_no_null (o : string * string) : Prop := no_null o.1 ∧ no_null o.2.

(** [encode] of the specification, on top of the source: the bytes
    [serialize] leaves in an empty sink on a little-endian host, when it
    returns. *)
Definition encode (p : Packet) : outcome (list Z) :=
  '(_, bytes) ← run (serialize LittleEndian p);
  mret bytes.

(** ** Readings of a packet as a whole *)

(** [getType()] of whichever class the packet is. *)
Definition getType (p : Packet) : Z :=
  match p with
  | PRequest r => Request.getType r
  | PData d => Data.getType d
  | PAcknowledgment a => Acknowledgment.getType a
  | PError e => Error.getType e
  | POptionAcknowledgment o => OptionAcknowledgment.getType o
  end.

(** A 16-bit value low byte first, the reverse of network order. *)
Definition le16 (x : Z) : list Z := [x mod 256; x / 256].

(** The strings of a packet that end at a terminator shared with what
    follows hold no null byte, and a request has a request opcode. *)
Definition delimited (p : Packet) : Prop :=
  match p with
  | PRequest r =>
      (Request.Type_ r = types.ReadRequest ∨ Request.Type_ r = types.WriteRequest)
      ∧ no_null (Request.Filename r)
      ∧ no_null (Request.Mode r)
      ∧ Forall no_null (Request.OptionsNames r)
      ∧ Forall no_null (Request.OptionsValues r)
  | POptionAcknowledgment o =>
      Forall pair_no_null (unordered_map.entries (OptionAcknowledgment.Options o))
  | _ => True
  end.

(** A mode string that carries an option after it: the mode, a null byte,
    the name, a null byte, the value. *)
Definition absorb_option (mode name value : string) : string :=
  String.append mode (String zero (String.append name (String zero value))).

(** The same packet: the same fields, a table being read through its
    entries. *)
Definition same_packet (p q : Packet) : Prop :=
  match p, q with
  | POptionAcknowledgment o, POptionAcknowledgment o' =>
      unordered_map.entries (OptionAcknowledgment.Options o)
      = unordered_map.entries (OptionAcknowledgment.Options o')
  | _, _ => p = q
  end.

(** * Properties *)

(** ** Bytes of a 16-bit value through [htons] *)

Lemma land_255_testbit (a n : Z) :
  0 <= n -> Z.testbit (Z.land a 255) n = Z.testbit a n && (n <? 8).
Proof.
  intros Hn. change 255 with (Z.ones 8).
  rewrite Z.land_spec, Z.testbit_ones_nonneg by lia.
  reflexivity.
Qed.

Lemma to_u8_mod (x : Z) : to_u8 x = x mod 256.
Proof.
  unfold to_u8. change 255 with (Z.ones 8).
  rewrite Z.land_ones by lia. reflexivity.
Qed.

Lemma bswap16_low (x : Z) : to_u8 (Z.shiftr (bswap16 x) 0) = to_u8 (Z.shiftr x 8).
Proof.
  unfold to_u8, bswap16. rewrite Z.shiftr_0_r.
  apply Z.bits_inj'; intros n Hn.
  rewrite !land_255_testbit, Z.lor_spec, land_255_testbit by lia.
  destruct (Z.ltb_spec n 8) as [Hlt|Hge].
  - rewrite Z.shiftl_spec_low by lia. simpl. rewrite !andb_true_r. reflexivity.
  - rewrite !andb_false_r. reflexivity.
Qed.

Lemma bswap16_high (x : Z) : to_u8 (Z.shiftr (bswap16 x) 8) = to_u8 x.
Proof.
  unfold to_u8, bswap16.
  apply Z.bits_inj'; intros n Hn.
  rewrite !land_255_testbit, Z.shiftr_spec, Z.lor_spec by lia.
  rewrite land_255_testbit, Z.shiftl_spec, land_255_testbit by lia.
  replace (n + 8 - 8) with n by lia.
  destruct (Z.ltb_spec n 8) as [Hlt|Hge].
  - replace (n + 8 <? 8) with false by (symmetry; apply Z.ltb_ge; lia).
    rewrite !andb_true_r, andb_false_r, orb_false_r. reflexivity.
  - rewrite !andb_false_r. reflexivity.
Qed.

(** On a little-endian host the two bytes [serialize] writes for a 16-bit
    field are its high byte, then its low byte. *)
Lemma htons_first_byte (x : Z) :
  is_u16 x -> to_u8 (Z.shiftr (htons LittleEndian x) 0) = x / 256.
Proof.
  intros Hx. simpl. rewrite bswap16_low, to_u8_mod, Z.shiftr_div_pow2 by lia.
  change (2 ^ 8) with 256. unfold is_u16 in Hx.
  apply Z.mod_small. split; [apply Z.div_pos; lia | apply Z.div_lt_upper_bound; lia].
Qed.

Lemma htons_second_byte (x : Z) :
  to_u8 (Z.shiftr (htons LittleEndian x) 8) = x mod 256.
Proof. simpl. rewrite bswap16_high. apply to_u8_mod. Qed.

(** On a big-endian host [htons] changes nothing, and the same two writes
    put the low byte first. *)
Lemma htons_bytes_big_endian_host (x : Z) :
  is_u16 x ->
  to_u8 (Z.shiftr (htons BigEndian x) 0) = x mod 256
  /\ to_u8 (Z.shiftr (htons BigEndian x) 8) = x / 256.
Proof.
  intros Hx. simpl. rewrite Z.shiftr_0_r, !to_u8_mod, Z.shiftr_div_pow2 by lia.
  change (2 ^ 8) with 256. unfold is_u16 in Hx. split; [reflexivity|].
  apply Z.mod_small. split; [apply Z.div_pos; lia | apply Z.div_lt_upper_bound; lia].
Qed.

Lemma be16_value (x : Z) : x / 256 * 256 + x mod 256 = x.
Proof. pose proof (Z.div_mod x 256). lia. Qed.

(** ** The writer monad *)

Section Writer.

Context {A B : Type}.

Lemma W_bind_run (m : W A) (k : A -> W B) (out : list Z) :
  (m ≫= k) out
  = match m out with Done (a, out') => k a out' | Abort why => Abort why end.
Proof. reflexivity. Qed.

Lemma W_bind_done (m : W A) (k : A -> W B) (out out' : list Z) (a : A) :
  m out = Done (a, out') -> (m ≫= k) out = k a out'.
Proof. intros Hm. rewrite W_bind_run, Hm. reflexivity. Qed.


End Writer.

(** One step of a [serialize] body: run the first action of a bind, given
    the equation [H] of what it does. *)
Tactic Notation "bind_step" uconstr(H) := rewrite (W_bind_done _ _ _ _ _ H).

Lemma put_run (b : Z) (out : list Z) : put b out = Done (tt, out ++ [b]).
Proof. reflexivity. Qed.

Lemma string_bytes_cons (c : ascii) (s : string) :
  string_bytes (String c s) = char_to_u8 c :: string_bytes s.
Proof. reflexivity. Qed.

Lemma length_string_bytes (s : string) : length (string_bytes s) = String.length s.
Proof.
  induction s as [|c s IH]; [reflexivity|].
  rewrite string_bytes_cons. simpl. rewrite IH. reflexivity.
Qed.

Lemma length_cstring (s : string) : length (cstring s) = S (String.length s).
Proof. unfold cstring. rewrite length_app, length_string_bytes. simpl. lia. Qed.

(** The character loop appends the bytes of the string and nothing else. *)
Lemma put_chars_run (s : string) (out : list Z) :
  put_chars s out = Done (tt, out ++ string_bytes s).
Proof.
  revert out. induction s as [|c s IH]; intros out.
  - simpl. unfold mret, W_ret. rewrite app_nil_r. reflexivity.
  - simpl. bind_step (put_run _ _). rewrite IH.
    rewrite string_bytes_cons, <- app_assoc. reflexivity.
Qed.

(** The byte loop of [Data::serialize] copies the buffer verbatim. *)
Lemma put_bytes_run (l out : list Z) : put_bytes l out = Done (tt, out ++ l).
Proof.
  revert out. induction l as [|b l IH]; intros out.
  - simpl. unfold mret, W_ret. rewrite app_nil_r. reflexivity.
  - simpl. bind_step (put_run _ _). rewrite IH.
    rewrite <- app_assoc. reflexivity.
Qed.

(** A string and its terminator, as [serialize] writes them. *)
Lemma put_cstring_run {A : Type} (s : string) (k : W A) (out : list Z) :
  (put_chars s;; put 0;; k) out = k (out ++ cstring s).
Proof.
  bind_step (put_chars_run _ _).
  bind_step (put_run _ _).
  unfold cstring. rewrite <- app_assoc. reflexivity.
Qed.

(** The two writes of a 16-bit field. *)
Lemma put_u16_run {A : Type} (host : byte_order) (x : Z) (k : W A) (out : list Z) :
  (put (to_u8 (Z.shiftr (htons host x) 0));;
   put (to_u8 (Z.shiftr (htons host x) 8));; k) out
  = k (out ++ u16_bytes host x).
Proof.
  bind_step (put_run _ _).
  bind_step (put_run _ _).
  unfold u16_bytes. rewrite <- app_assoc. reflexivity.
Qed.

Lemma u16_bytes_little_endian (x : Z) :
  is_u16 x -> u16_bytes LittleEndian x = be16 x.
Proof.
  intros Hx. unfold u16_bytes, be16.
  rewrite htons_first_byte, htons_second_byte by exact Hx. reflexivity.
Qed.

(** The same two writes on a big-endian host: low byte first. *)
Lemma u16_bytes_big_endian (x : Z) :
  is_u16 x -> u16_bytes BigEndian x = [x mod 256; x / 256].
Proof.
  intros Hx. unfold u16_bytes.
  destruct (htons_bytes_big_endian_host x Hx) as [-> ->]. reflexivity.
Qed.

(** ** What each [serialize] writes and returns *)

Lemma options_bytes_cons (o : string * string) (os : list (string * string)) :
  options_bytes (o :: os) = cstring o.1 ++ cstring o.2 ++ options_bytes os.
Proof. unfold options_bytes, option_bytes. simpl. rewrite <- app_assoc. reflexivity. Qed.

Lemma options_size_cons (o : string * string) (os : list (string * string)) :
  options_size (o :: os)
  = (String.length o.1 + String.length o.2 + 2 + options_size os)%nat.
Proof. reflexivity. Qed.

Lemma length_options_bytes (os : list (string * string)) :
  length (options_bytes os) = options_size os.
Proof.
  induction os as [|o os IH]; [reflexivity|].
  rewrite options_bytes_cons, options_size_cons, !length_app, !length_cstring, IH. lia.
Qed.

Lemma at_index_run {A : Type} (v : list A) (i : nat) (x : A) (out : list Z) :
  v !! i = Some x -> at_index v i out = Done (x, out).
Proof. intros Hx. unfold at_index. rewrite Hx. reflexivity. Qed.

Lemma request_options_lookup (r : Request.t) (i : nat) (n v : string) :
  Request.OptionsNames r !! i = Some n ->
  Request.OptionsValues r !! i = Some v ->
  request_options r !! i = Some (n, v).
Proof.
  intros Hn Hv. unfold request_options.
  apply lookup_zip_with_Some. exists n, v. auto.
Qed.

Lemma length_request_options (r : Request.t) :
  paired r -> length (request_options r) = length (Request.OptionsNames r).
Proof.
  unfold paired, request_options. intros Hp.
  rewrite length_zip_with. lia.
Qed.

(** The index loop of [Request::serialize], started at [Idx] with [todo]
    iterations to go, reads both vectors in range and writes the options
    from [Idx] on. *)
Lemma Request_options_loop_run (this : Request.t) (todo Idx OptionsSize : nat)
    (out : list Z) :
  paired this ->
  (Idx + todo)%nat = length (Request.OptionsNames this) ->
  Request.options_loop this todo Idx OptionsSize out
  = Done ((OptionsSize + options_size (drop Idx (request_options this)))%nat,
          out ++ options_bytes (drop Idx (request_options this))).
Proof.
  intros Hp. revert Idx OptionsSize out.
  induction todo as [|todo IH]; intros Idx OptionsSize out Hlen.
  - rewrite drop_ge by (rewrite length_request_options by exact Hp; lia).
    simpl. unfold mret, W_ret, options_size. simpl.
    rewrite app_nil_r, Nat.add_0_r. reflexivity.
  - destruct (lookup_lt_is_Some_2 (Request.OptionsNames this) Idx) as [n Hn]; [lia|].
    destruct (lookup_lt_is_Some_2 (Request.OptionsValues this) Idx) as [v Hv];
      [unfold paired in Hp; lia|].
    rewrite (drop_S _ (n, v) Idx) by (apply request_options_lookup; assumption).
    simpl Request.options_loop.
    bind_step (at_index_run _ _ _ _ Hn).
    rewrite put_cstring_run.
    bind_step (at_index_run _ _ _ _ Hv).
    rewrite put_cstring_run.
    rewrite IH by lia.
    rewrite options_bytes_cons, options_size_cons. simpl fst; simpl snd.
    rewrite <- !app_assoc. f_equal. f_equal. lia.
Qed.

Lemma Request_serialize_run (host : byte_order) (this : Request.t) (out : list Z) :
  paired this ->
  Request.serialize host this out
  = Done (wire_size (PRequest this), out ++ request_layout (u16_bytes host) this).
Proof.
  intros Hp. unfold Request.serialize.
  assert (Ha : assertW (length (Request.OptionsNames this)
                        =? length (Request.OptionsValues this))%nat out
               = Done (tt, out)).
  { unfold assertW. rewrite (proj2 (Nat.eqb_eq _ _) Hp). reflexivity. }
  bind_step Ha.
  rewrite put_u16_run, !put_cstring_run.
  bind_step (Request_options_loop_run this _ 0 0 _ Hp (Nat.add_0_l _)).
  unfold mret, W_ret, request_layout. rewrite drop_0, <- !app_assoc.
  f_equal. f_equal. unfold wire_size, sizeof_u16. lia.
Qed.


Lemma Data_serialize_run (host : byte_order) (this : Data.t) (out : list Z) :
  Data.serialize host this out
  = Done (wire_size (PData this), out ++ data_layout (u16_bytes host) this).
Proof.
  unfold Data.serialize. rewrite !put_u16_run.
  bind_step (put_bytes_run _ _).
  unfold mret, W_ret, data_layout, Data.Type_. rewrite <- !app_assoc. reflexivity.
Qed.

Lemma Acknowledgment_serialize_run (host : byte_order) (this : Acknowledgment.t)
    (out : list Z) :
  Acknowledgment.serialize host this out
  = Done (wire_size (PAcknowledgment this),
          out ++ acknowledgment_layout (u16_bytes host) this).
Proof.
  unfold Acknowledgment.serialize. rewrite !put_u16_run.
  unfold mret, W_ret, acknowledgment_layout, Acknowledgment.Type_.
  rewrite <- !app_assoc. reflexivity.
Qed.

Lemma Error_serialize_run (host : byte_order) (this : Error.t) (out : list Z) :
  Error.serialize host this out
  = Done (wire_size (PError this), out ++ error_layout (u16_bytes host) this).
Proof.
  unfold Error.serialize. rewrite !put_u16_run, put_cstring_run.
  unfold mret, W_ret, error_layout, Error.Type_. rewrite <- !app_assoc.
  f_equal. f_equal. unfold wire_size, sizeof_u16. lia.
Qed.

Lemma OptionAcknowledgment_options_loop_run (todo : list (string * string))
    (OptionsSize : nat) (out : list Z) :
  OptionAcknowledgment.options_loop todo OptionsSize out
  = Done ((OptionsSize + options_size todo)%nat, out ++ options_bytes todo).
Proof.
  revert OptionsSize out. induction todo as [|[Key Value] todo IH]; intros OptionsSize out.
  - simpl. unfold mret, W_ret, options_size. simpl.
    rewrite app_nil_r, Nat.add_0_r. reflexivity.
  - simpl OptionAcknowledgment.options_loop.
    rewrite !put_cstring_run, IH, options_bytes_cons, options_size_cons.
    simpl fst; simpl snd. rewrite <- !app_assoc. f_equal. f_equal. lia.
Qed.

Lemma OptionAcknowledgment_serialize_run (host : byte_order)
    (this : OptionAcknowledgment.t) (out : list Z) :
  OptionAcknowledgment.serialize host this out
  = Done (wire_size (POptionAcknowledgment this),
          out ++ option_acknowledgment_layout (u16_bytes host) this).
Proof.
  unfold OptionAcknowledgment.serialize. rewrite put_u16_run.
  bind_step (OptionAcknowledgment_options_loop_run _ _ _).
  unfold mret, W_ret, option_acknowledgment_layout, OptionAcknowledgment.Type_.
  rewrite <- !app_assoc. reflexivity.
Qed.

Lemma serialize_run (host : byte_order) (p : Packet) (out : list Z) :
  parallel_options p ->
  serialize host p out = Done (wire_size p, out ++ layout (u16_bytes host) p).
Proof.
  destruct p as [r|d|a|e|o]; simpl; intros Hp.
  - apply Request_serialize_run, Hp.
  - apply Data_serialize_run.
  - apply Acknowledgment_serialize_run.
  - apply Error_serialize_run.
  - apply OptionAcknowledgment_serialize_run.
Qed.

Lemma length_layout (w16 : Z -> list Z) (p : Packet) :
  (forall x, length (w16 x) = 2%nat) ->
  length (layout w16 p) = wire_size p.
Proof.
  intros Hw. destruct p as [r|d|a|e|o]; simpl;
    unfold request_layout, data_layout, acknowledgment_layout, error_layout,
      option_acknowledgment_layout;
    rewrite ?length_app, ?Hw, ?length_cstring, ?length_options_bytes; lia.
Qed.

Lemma layout_little_endian (p : Packet) :
  typed p -> layout (u16_bytes LittleEndian) p = wire p.
Proof.
  unfold wire.
  destruct p as [r|d|a|e|o]; simpl;
    unfold request_layout, data_layout, acknowledgment_layout, error_layout,
      option_acknowledgment_layout; intros Ht.
  - destruct Ht as [Ht _]. rewrite u16_bytes_little_endian by exact Ht. reflexivity.
  - destruct Ht as [Ht _].
    rewrite !u16_bytes_little_endian by (exact Ht || (unfold is_u16, types.DataPacket; lia)).
    reflexivity.
  - rewrite !u16_bytes_little_endian
      by (exact Ht || (unfold is_u16, types.AcknowledgmentPacket; lia)).
    reflexivity.
  - rewrite !u16_bytes_little_endian
      by (exact Ht || (unfold is_u16, types.ErrorPacket; lia)).
    reflexivity.
  - rewrite !u16_bytes_little_endian
      by (unfold is_u16, types.OptionAcknowledgmentPacket; lia).
    reflexivity.
Qed.

(** ** Serialization: sizes and bytes *)

(** C1 (as amended). For every packet of any of the five variants, provided
    that, for a Request, the vector of option names and the vector of option
    values have the same length, [serialize] returns, whatever the host byte
    order and whatever the sink already holds; the number of bytes it appends
    to the sink is the size it returns, and that size is
    2 + |filename| + |mode| + 2 + Σ (|name| + |value| + 2) for a Request,
    4 + |payload| for Data, 4 for an Acknowledgment, |message| + 5 for an
    Error and 2 + Σ (|name| + |value| + 2) for an OptionAcknowledgment. *)
Theorem serialize_returns_size_written (host : byte_order) (p : Packet) (out : list Z) :
  parallel_options p ->
  exists (size : nat) (bytes : list Z),
    serialize host p out = Done (size, out ++ bytes)
    /\ length bytes = size
    /\ size = wire_size p.
Proof.
  intros Hp. exists (wire_size p), (layout (u16_bytes host) p).
  split; [apply serialize_run, Hp|]. split; [|reflexivity].
  apply length_layout. reflexivity.
Qed.

Lemma serialize_returns_size_written_witness :
  exists (size : nat) (bytes : list Z),
    serialize LittleEndian
      (PRequest (Request.mk 1 "file.txt" "octet" ["blksize"%string] ["1024"%string]))
      [] = Done (size, [] ++ bytes)
    /\ length bytes = size
    /\ size = wire_size
         (PRequest (Request.mk 1 "file.txt" "octet" ["blksize"%string] ["1024"%string])).
Proof.
  apply (serialize_returns_size_written LittleEndian
           (PRequest (Request.mk 1 "file.txt" "octet" ["blksize"%string] ["1024"%string]))
           []).
  reflexivity.
Defined.

(** C1, as stated, fails: this request comes out of a constructor, meets
    every invariant of section 3 (opcode, filename, mode, distinct option
    names), and [serialize] stops at its assertion instead of returning. *)
Lemma serialize_fails_on_unpaired_request :
  Request.new_view_options types.ReadRequest "file.txt" "octet" ["blksize"%string] []
  = Done (Request.mk types.ReadRequest "file.txt" "octet" ["blksize"%string] [])
  /\ invariants
       (PRequest (Request.mk types.ReadRequest "file.txt" "octet" ["blksize"%string] []))
  /\ run (serialize LittleEndian
            (PRequest (Request.mk types.ReadRequest "file.txt" "octet"
                         ["blksize"%string] [])))
     = Abort AssertionFailed.
Proof.
  split; [reflexivity|]. split; [|reflexivity].
  apply (bool_decide_unpack _). vm_compute. exact I.
Qed.

(** C2 (as amended). On a little-endian host, for every Request whose two
    option vectors have the same length, [serialize] emits the 2-byte
    big-endian opcode, the filename bytes, 0x00, the mode bytes, 0x00, then
    for each index, in order, the option name bytes, 0x00, the option value
    bytes, 0x00; and there Request(ReadRequest, "file.txt", "octet") is
    encoded as 00 01 66 69 6C 65 2E 74 78 74 00 6F 63 74 65 74 00. *)
Theorem Request_serialize_wire :
  (forall r : Request.t,
     is_u16 (Request.Type_ r) ->
     length (Request.OptionsNames r) = length (Request.OptionsValues r) ->
     exists size : nat,
       run (Request.serialize LittleEndian r)
       = Done (size,
               be16 (Request.Type_ r)
               ++ cstring (Request.Filename r)
               ++ cstring (Request.Mode r)
               ++ options_bytes (zip (Request.OptionsNames r) (Request.OptionsValues r))))
  /\ (Request.new_view types.ReadRequest "file.txt" "octet"
        ≫= fun r => run (Request.serialize LittleEndian r))
     = Done (17%nat,
             [0x00; 0x01; 0x66; 0x69; 0x6C; 0x65; 0x2E; 0x74; 0x78; 0x74; 0x00;
              0x6F; 0x63; 0x74; 0x65; 0x74; 0x00]).
Proof.
  split; [|reflexivity].
  intros r Hty Hp. exists (wire_size (PRequest r)).
  unfold run. rewrite Request_serialize_run by exact Hp.
  unfold request_layout. rewrite u16_bytes_little_endian by exact Hty. reflexivity.
Qed.

Lemma Request_serialize_wire_witness :
  exists size : nat,
    run (Request.serialize LittleEndian
           (Request.mk 2 "a.bin" "netascii" ["tsize"; "blksize"]%string ["0"; "512"]%string))
    = Done (size,
            be16 2 ++ cstring "a.bin" ++ cstring "netascii"
            ++ options_bytes (zip ["tsize"; "blksize"]%string ["0"; "512"]%string)).
Proof.
  apply (proj1 Request_serialize_wire
           (Request.mk 2 "a.bin" "netascii" ["tsize"; "blksize"]%string ["0"; "512"]%string)).
  - unfold is_u16. simpl. lia.
  - reflexivity.
Defined.

(** C2, as stated for every Request value and with no word on the host,
    fails twice: with two option names and one option value [serialize]
    emits nothing and does not return; and on a big-endian host
    Request(ReadRequest, "file.txt", "octet") comes out with its opcode low
    byte first, 01 00, not 00 01. *)
Lemma Request_serialize_fails_as_stated :
  (Request.new_move_options types.WriteRequest "file.txt" "octet"
     ["tsize"; "blksize"]%string ["0"%string]
   = Done (Request.mk types.WriteRequest "file.txt" "octet"
             ["tsize"; "blksize"]%string ["0"%string])
   /\ run (Request.serialize LittleEndian
             (Request.mk types.WriteRequest "file.txt" "octet"
                ["tsize"; "blksize"]%string ["0"%string]))
      = Abort AssertionFailed
   /\ forall result,
        run (Request.serialize LittleEndian
               (Request.mk types.WriteRequest "file.txt" "octet"
                  ["tsize"; "blksize"]%string ["0"%string]))
        <> Done result)
  /\ (Request.new_view types.ReadRequest "file.txt" "octet"
        ≫= fun r => run (Request.serialize BigEndian r))
     = Done (17%nat,
             [0x01; 0x00; 0x66; 0x69; 0x6C; 0x65; 0x2E; 0x74; 0x78; 0x74; 0x00;
              0x6F; 0x63; 0x74; 0x65; 0x74; 0x00]).
Proof.
  split; [|reflexivity].
  split; [reflexivity|]. split; [reflexivity|]. intros result. discriminate.
Qed.

(** ** Constructors *)

Lemma cpp_assert_true (c : bool) : c = true -> cpp_assert c = Done tt.
Proof. intros ->. reflexivity. Qed.

Lemma cpp_assert_false (c : bool) : c = false -> cpp_assert c = Abort AssertionFailed.
Proof. intros ->. reflexivity. Qed.

(** C4. Both Data constructors return the packet for every block >= 1 and
    every payload of 0 to 512 bytes, and both stop at the range assertion for
    a payload of 513 bytes or more. *)
Theorem Data_constructor_range :
  (forall (Block : Z) (Buffer : list Z),
     1 <= Block -> (length Buffer <= 512)%nat ->
     Data.new_copy Block Buffer = Done (Data.mk Block Buffer)
     /\ Data.new_move Block Buffer = Done (Data.mk Block Buffer))
  /\ (forall (Block : Z) (Buffer : list Z),
        (513 <= length Buffer)%nat ->
        Data.new_copy Block Buffer = Abort AssertionFailed
        /\ Data.new_move Block Buffer = Abort AssertionFailed).
Proof.
  split; intros Block Buffer.
  - intros Hb Hl. unfold Data.new_copy, Data.new_move.
    rewrite (cpp_assert_true (1 <=? Block)) by (apply Z.leb_le; exact Hb).
    rewrite cpp_assert_true; [split; reflexivity|].
    apply andb_true_intro. split; [reflexivity | apply Nat.leb_le; exact Hl].
  - intros Hl. unfold Data.new_copy, Data.new_move.
    assert (Hsize : (0 <=? length Buffer)%nat && (length Buffer <=? 512)%nat = false).
    { apply andb_false_intro2, Nat.leb_gt. lia. }
    rewrite (cpp_assert_false _ Hsize).
    destruct (cpp_assert (1 <=? Block)) as [[]|[]] eqn:Hblock;
      try (split; reflexivity).
    unfold cpp_assert in Hblock. destruct (1 <=? Block); discriminate.
Qed.

Lemma Data_constructor_range_witness :
  (Data.new_copy 1 (repeat 0 512) = Done (Data.mk 1 (repeat 0 512))
   /\ Data.new_move 1 (repeat 0 512) = Done (Data.mk 1 (repeat 0 512)))
  /\ (Data.new_copy 1 (repeat 0 513) = Abort AssertionFailed
      /\ Data.new_move 1 (repeat 0 513) = Abort AssertionFailed).
Proof.
  split.
  - apply (proj1 Data_constructor_range 1 (repeat 0 512)).
    + lia.
    + rewrite repeat_length. lia.
  - apply (proj2 Data_constructor_range 1 (repeat 0 513)).
    rewrite repeat_length. lia.
Defined.

(** C5. The Acknowledgment constructor returns the packet for every block
    >= 1, and stops at its assertion for block 0. *)
Theorem Acknowledgment_constructor_block :
  (forall Block : Z, 1 <= Block -> Acknowledgment.new Block = Done (Acknowledgment.mk Block))
  /\ Acknowledgment.new 0 = Abort AssertionFailed.
Proof.
  split; [|reflexivity].
  intros Block Hb. unfold Acknowledgment.new.
  rewrite cpp_assert_true by (apply Z.leb_le; exact Hb). reflexivity.
Qed.

Lemma Acknowledgment_constructor_block_witness :
  Acknowledgment.new 65535 = Done (Acknowledgment.mk 65535).
Proof. apply (proj1 Acknowledgment_constructor_block 65535). lia. Defined.

Lemma request_type_check (ty : Z) :
  (ty =? types.ReadRequest) || (ty =? types.WriteRequest) = true
  <-> ty = types.ReadRequest \/ ty = types.WriteRequest.
Proof. rewrite orb_true_iff, !Z.eqb_eq. reflexivity. Qed.

Lemma Request_new_accepts (ty : Z) (fn mode : string) (names values : list string) :
  ty = types.ReadRequest \/ ty = types.WriteRequest ->
  Request.new_view ty fn mode = Done (Request.mk ty fn mode [] [])
  /\ Request.new_move ty fn mode = Done (Request.mk ty fn mode [] [])
  /\ Request.new_view_options ty fn mode names values
     = Done (Request.mk ty fn mode names values)
  /\ Request.new_move_options ty fn mode names values
     = Done (Request.mk ty fn mode names values).
Proof.
  unfold Request.new_view_options, Request.new_view, Request.new_move,
    Request.new_move_options.
  intros Hty. apply request_type_check in Hty. rewrite (cpp_assert_true _ Hty).
  repeat split; reflexivity.
Qed.

Lemma Request_new_rejects (ty : Z) (fn mode : string) (names values : list string) :
  ~ (ty = types.ReadRequest \/ ty = types.WriteRequest) ->
  Request.new_view ty fn mode = Abort AssertionFailed
  /\ Request.new_move ty fn mode = Abort AssertionFailed
  /\ Request.new_view_options ty fn mode names values = Abort AssertionFailed
  /\ Request.new_move_options ty fn mode names values = Abort AssertionFailed.
Proof.
  unfold Request.new_view_options, Request.new_view, Request.new_move,
    Request.new_move_options.
  intros Hty. rewrite <- request_type_check in Hty. apply not_true_is_false in Hty.
  rewrite (cpp_assert_false _ Hty). repeat split; reflexivity.
Qed.




(** ** The fixed-layout packets *)

Lemma be16_small (x : Z) : 0 <= x < 256 -> be16 x = [0; x].
Proof.
  intros Hx. unfold be16. rewrite Z.div_small, Z.mod_small by lia. reflexivity.
Qed.

Lemma count_null_cstring (s : string) :
  no_null s -> count_occ Z.eq_dec (cstring s) 0 = 1%nat.
Proof.
  unfold no_null, cstring. intros Hs.
  rewrite count_occ_app.
  rewrite (proj1 (count_occ_not_In Z.eq_dec (string_bytes s) 0)).
  - reflexivity.
  - intros Hin. apply Hs, list_elem_of_In, Hin.
Qed.

(** What C7 states, on a little-endian host. There, for every Error with
    0 <= code <= 8 and a message without null byte (the empty one
    included), [serialize] emits 00 05, then 00 and the code,
    then the message bytes, then 0x00, which is the only null byte after the
    header, and returns |message| + 5; and Error(1, "File not found") is
    encoded as 00 05 00 01, the ASCII bytes of the message, 00. *)
Theorem Error_serialize_wire :
  (forall (code : Z) (message : string),
     0 <= code <= 8 ->
     no_null message ->
     run (Error.serialize LittleEndian (Error.mk code message))
     = Done ((String.length message + 5)%nat,
             [0x00; 0x05; 0x00; code] ++ string_bytes message ++ [0x00])
     /\ count_occ Z.eq_dec (string_bytes message ++ [0x00]) 0 = 1%nat)
  /\ (Error.new_view errors.FileNotFound "File not found"
        ≫= fun e => run (Error.serialize LittleEndian e))
     = Done (19%nat,
             [0x00; 0x05; 0x00; 0x01;
              0x46; 0x69; 0x6C; 0x65; 0x20; 0x6E; 0x6F; 0x74; 0x20;
              0x66; 0x6F; 0x75; 0x6E; 0x64; 0x00]).
Proof.
  split; [|reflexivity].
  intros code message Hcode Hnull. split; [|apply count_null_cstring, Hnull].
  unfold run. rewrite Error_serialize_run.
  unfold error_layout. simpl Error.ErrorCode; simpl Error.ErrorMessage.
  rewrite !u16_bytes_little_endian by (unfold is_u16, types.ErrorPacket; lia).
  rewrite (be16_small code) by lia. reflexivity.
Qed.

Lemma Error_serialize_wire_witness :
  run (Error.serialize LittleEndian (Error.mk 8 EmptyString))
  = Done ((String.length EmptyString + 5)%nat,
          [0; 5; 0; 8] ++ string_bytes EmptyString ++ [0])
  /\ count_occ Z.eq_dec (string_bytes EmptyString ++ [0]) 0 = 1%nat.
Proof.
  apply (proj1 Error_serialize_wire 8 EmptyString).
  - lia.
  - unfold no_null. simpl. apply not_elem_of_nil.
Defined.

(** What C8 states, on a little-endian host. There, for every block b >= 1,
    [serialize] on Acknowledgment(b) writes four bytes, 00 04 followed by b big-endian, and returns 4; and
    Acknowledgment(5) is encoded as 00 04 00 05. *)
Theorem Acknowledgment_serialize_wire :
  (forall b : Z,
     1 <= b <= 65535 ->
     run (Acknowledgment.serialize LittleEndian (Acknowledgment.mk b))
     = Done (4%nat, [0x00; 0x04; b / 256; b mod 256]))
  /\ (Acknowledgment.new 5 ≫= fun a => run (Acknowledgment.serialize LittleEndian a))
     = Done (4%nat, [0x00; 0x04; 0x00; 0x05]).
Proof.
  split; [|reflexivity].
  intros b Hb. unfold run. rewrite Acknowledgment_serialize_run.
  unfold acknowledgment_layout. simpl Acknowledgment.Block.
  rewrite !u16_bytes_little_endian by (unfold is_u16, types.AcknowledgmentPacket; lia).
  reflexivity.
Qed.

Lemma Acknowledgment_serialize_wire_witness :
  run (Acknowledgment.serialize LittleEndian (Acknowledgment.mk 258))
  = Done (4%nat, [0; 4; 258 / 256; 258 mod 256]).
Proof. apply (proj1 Acknowledgment_serialize_wire 258). lia. Defined.

(** What C9 states, on a little-endian host. There, for every Data with
    block >= 1 and a payload of at most 512 bytes, [serialize] emits 00 03, the block big-endian, then the payload as it is,
    with nothing after it, null bytes of the payload included: 4 + |payload|
    bytes in all. *)
Theorem Data_serialize_wire (block : Z) (payload : list Z) :
  1 <= block <= 65535 ->
  (length payload <= 512)%nat ->
  run (Data.serialize LittleEndian (Data.mk block payload))
  = Done ((4 + length payload)%nat,
          [0x00; 0x03; block / 256; block mod 256] ++ payload)
  /\ length ([0x00; 0x03; block / 256; block mod 256] ++ payload)
     = (4 + length payload)%nat.
Proof.
  intros Hb _. split; [|reflexivity].
  unfold run. rewrite Data_serialize_run.
  unfold data_layout. simpl Data.Block; simpl Data.DataBuffer.
  rewrite !u16_bytes_little_endian by (unfold is_u16, types.DataPacket; lia).
  reflexivity.
Qed.

Lemma Data_serialize_wire_witness :
  run (Data.serialize LittleEndian (Data.mk 1 [0x61; 0x00; 0x00; 0x62]))
  = Done ((4 + length [0x61; 0x00; 0x00; 0x62])%nat,
          [0; 3; 1 / 256; 1 mod 256] ++ [0x61; 0x00; 0x00; 0x62])
  /\ length ([0; 3; 1 / 256; 1 mod 256] ++ [0x61; 0x00; 0x00; 0x62])
     = (4 + length [0x61; 0x00; 0x00; 0x62])%nat.
Proof.
  apply (Data_serialize_wire 1 [0x61; 0x00; 0x00; 0x62]).
  - lia.
  - simpl. lia.
Defined.

(** ** The same packets on a big-endian host *)

(** Every [serialize] writes [htons(x) >> 0] before [htons(x) >> 8]. Where
    [htons] swaps the bytes this is network order, as the comment above each
    [serialize] announces ("Convert packet to network byte order"); where
    [htons] is the identity the low byte goes out first. *)

(** C7 (defect of the code). On a big-endian host [serialize] on an Error
    with 0 <= code <= 8 writes 05 00, then the code and 00, then the message
    and its terminator: it returns |message| + 5, but the opcode and the
    error code are low byte first, so the bytes are not those of C7; and
    Error(1, "File not found") comes out as 05 00 01 00, the message, 00. *)
Theorem Error_serialize_big_endian_host :
  (forall (code : Z) (message : string),
     0 <= code <= 8 ->
     run (Error.serialize BigEndian (Error.mk code message))
     = Done ((String.length message + 5)%nat,
             [0x05; 0x00; code; 0x00] ++ string_bytes message ++ [0x00])
     /\ run (Error.serialize BigEndian (Error.mk code message))
        <> Done ((String.length message + 5)%nat,
                 [0x00; 0x05; 0x00; code] ++ string_bytes message ++ [0x00]))
  /\ (Error.new_view errors.FileNotFound "File not found"
        ≫= fun e => run (Error.serialize BigEndian e))
     = Done (19%nat,
             [0x05; 0x00; 0x01; 0x00;
              0x46; 0x69; 0x6C; 0x65; 0x20; 0x6E; 0x6F; 0x74; 0x20;
              0x66; 0x6F; 0x75; 0x6E; 0x64; 0x00]).
Proof.
  split; [|reflexivity].
  intros code message Hcode.
  assert (Hrun : run (Error.serialize BigEndian (Error.mk code message))
                 = Done ((String.length message + 5)%nat,
                         [5; 0; code; 0] ++ string_bytes message ++ [0])).
  { unfold run. rewrite Error_serialize_run.
    unfold error_layout. simpl Error.ErrorCode; simpl Error.ErrorMessage.
    rewrite !u16_bytes_big_endian by (unfold is_u16, types.ErrorPacket; lia).
    rewrite (Z.div_small code 256), (Z.mod_small code 256) by lia. reflexivity. }
  split; [exact Hrun|]. rewrite Hrun. intros Heq. discriminate Heq.
Qed.

Lemma Error_serialize_big_endian_host_witness :
  run (Error.serialize BigEndian (Error.mk 8 EmptyString))
  = Done ((String.length EmptyString + 5)%nat,
          [5; 0; 8; 0] ++ string_bytes EmptyString ++ [0])
  /\ run (Error.serialize BigEndian (Error.mk 8 EmptyString))
     <> Done ((String.length EmptyString + 5)%nat,
              [0; 5; 0; 8] ++ string_bytes EmptyString ++ [0]).
Proof. apply (proj1 Error_serialize_big_endian_host 8 EmptyString). lia. Defined.

(** C8 (defect of the code). On a big-endian host [serialize] on
    Acknowledgment(b), for every block b >= 1, returns 4 and writes four
    bytes, but they are 04 00 followed by b low byte first, not 00 04
    followed by b big-endian; and Acknowledgment(5) comes out as
    04 00 05 00, not 00 04 00 05. *)
Theorem Acknowledgment_serialize_big_endian_host :
  (forall b : Z,
     1 <= b <= 65535 ->
     run (Acknowledgment.serialize BigEndian (Acknowledgment.mk b))
     = Done (4%nat, [0x04; 0x00; b mod 256; b / 256])
     /\ run (Acknowledgment.serialize BigEndian (Acknowledgment.mk b))
        <> Done (4%nat, [0x00; 0x04; b / 256; b mod 256]))
  /\ (Acknowledgment.new 5 ≫= fun a => run (Acknowledgment.serialize BigEndian a))
     = Done (4%nat, [0x04; 0x00; 0x05; 0x00]).
Proof.
  split; [|reflexivity].
  intros b Hb.
  assert (Hrun : run (Acknowledgment.serialize BigEndian (Acknowledgment.mk b))
                 = Done (4%nat, [4; 0; b mod 256; b / 256])).
  { unfold run. rewrite Acknowledgment_serialize_run.
    unfold acknowledgment_layout. simpl Acknowledgment.Block.
    rewrite !u16_bytes_big_endian
      by (unfold is_u16, types.AcknowledgmentPacket; lia).
    reflexivity. }
  split; [exact Hrun|]. rewrite Hrun. intros Heq. discriminate Heq.
Qed.

Lemma Acknowledgment_serialize_big_endian_host_witness :
  run (Acknowledgment.serialize BigEndian (Acknowledgment.mk 258))
  = Done (4%nat, [4; 0; 258 mod 256; 258 / 256])
  /\ run (Acknowledgment.serialize BigEndian (Acknowledgment.mk 258))
     <> Done (4%nat, [0; 4; 258 / 256; 258 mod 256]).
Proof. apply (proj1 Acknowledgment_serialize_big_endian_host 258). lia. Defined.

(** C9 (defect of the code). On a big-endian host [serialize] on a Data
    with block >= 1 and a payload of at most 512 bytes copies the payload as
    it is, with nothing after it, and writes 4 + |payload| bytes, but the
    four header bytes are 03 00 and the block low byte first, not 00 03 and
    the block big-endian; Data(1, empty) comes out as 03 00 01 00. *)
Theorem Data_serialize_big_endian_host :
  (forall (block : Z) (payload : list Z),
     1 <= block <= 65535 ->
     (length payload <= 512)%nat ->
     run (Data.serialize BigEndian (Data.mk block payload))
     = Done ((4 + length payload)%nat,
             [0x03; 0x00; block mod 256; block / 256] ++ payload)
     /\ run (Data.serialize BigEndian (Data.mk block payload))
        <> Done ((4 + length payload)%nat,
                 [0x00; 0x03; block / 256; block mod 256] ++ payload))
  /\ (Data.new_copy 1 [] ≫= fun d => run (Data.serialize BigEndian d))
     = Done (4%nat, [0x03; 0x00; 0x01; 0x00]).
Proof.
  split; [|reflexivity].
  intros block payload Hb _.
  assert (Hrun : run (Data.serialize BigEndian (Data.mk block payload))
                 = Done ((4 + length payload)%nat,
                         [3; 0; block mod 256; block / 256] ++ payload)).
  { unfold run. rewrite Data_serialize_run.
    unfold data_layout. simpl Data.Block; simpl Data.DataBuffer.
    rewrite !u16_bytes_big_endian by (unfold is_u16, types.DataPacket; lia).
    reflexivity. }
  split; [exact Hrun|]. rewrite Hrun. intros Heq. discriminate Heq.
Qed.

Lemma Data_serialize_big_endian_host_witness :
  run (Data.serialize BigEndian (Data.mk 1 [0x61; 0x00; 0x00; 0x62]))
  = Done ((4 + length [0x61; 0x00; 0x00; 0x62])%nat,
          [3; 0; 1 mod 256; 1 / 256] ++ [0x61; 0x00; 0x00; 0x62])
  /\ run (Data.serialize BigEndian (Data.mk 1 [0x61; 0x00; 0x00; 0x62]))
     <> Done ((4 + length [0x61; 0x00; 0x00; 0x62])%nat,
              [0; 3; 1 / 256; 1 mod 256] ++ [0x61; 0x00; 0x00; 0x62]).
Proof.
  apply (proj1 Data_serialize_big_endian_host 1 [0x61; 0x00; 0x00; 0x62]).
  - lia.
  - simpl. lia.
Defined.

(** ** The two option vectors of a request *)



(** ** Decoding what [serialize] wrote *)

Lemma u8_to_char_to_u8 (c : ascii) : u8_to_char (char_to_u8 c) = c.
Proof. unfold u8_to_char, char_to_u8. rewrite N2Z.id. apply ascii_N_embedding. Qed.

Lemma no_null_cons (c : ascii) (s : string) :
  no_null (String c s) -> char_to_u8 c <> 0 /\ no_null s.
Proof.
  unfold no_null. rewrite string_bytes_cons, not_elem_of_cons.
  intros [Hc Hs]. split; [congruence | exact Hs].
Qed.

(** Scanning for the terminator gives back a string without null byte, and
    leaves what follows its terminator. *)
Lemma take_cstring_cstring (s : string) (rest : list Z) :
  no_null s -> take_cstring (cstring s ++ rest) = Some (s, rest).
Proof.
  induction s as [|c s IH]; intros Hs.
  - reflexivity.
  - apply no_null_cons in Hs as [Hc Hs].
    unfold cstring in *. rewrite string_bytes_cons. simpl.
    rewrite (proj2 (Z.eqb_neq _ _) Hc), (IH Hs), u8_to_char_to_u8. reflexivity.
Qed.

Lemma parse_pairs_rounds_options (os : list (string * string)) (fuel : nat) :
  Forall pair_no_null os ->
  (length os <= fuel)%nat ->
  parse_pairs_rounds fuel (options_bytes os) = Ok os.
Proof.
  revert fuel. induction os as [|[n v] os IH]; intros fuel Hos Hfuel.
  - destruct fuel; reflexivity.
  - apply Forall_cons in Hos as [[Hn Hv] Hos]. simpl in Hn, Hv.
    destruct fuel as [|fuel]; [simpl in Hfuel; lia|].
    rewrite options_bytes_cons. simpl fst; simpl snd.
    destruct (cstring n ++ cstring v ++ options_bytes os) as [|b bs] eqn:Hbytes.
    { unfold cstring in Hbytes. destruct (string_bytes n); discriminate. }
    rewrite <- Hbytes. unfold parse_pairs_rounds; fold parse_pairs_rounds.
    rewrite Hbytes at 1.
    rewrite (take_cstring_cstring n _ Hn), (take_cstring_cstring v _ Hv).
    rewrite IH by (simpl in Hfuel; auto with lia). reflexivity.
Qed.

Lemma options_size_ge (os : list (string * string)) :
  (length os <= options_size os)%nat.
Proof.
  induction os as [|o os IH]; [reflexivity|].
  rewrite options_size_cons. simpl. lia.
Qed.

Lemma parse_pairs_options (os : list (string * string)) :
  Forall pair_no_null os -> parse_pairs (options_bytes os) = Ok os.
Proof.
  intros Hos. unfold parse_pairs. apply parse_pairs_rounds_options; [exact Hos|].
  rewrite length_options_bytes. apply options_size_ge.
Qed.

Lemma construct_invariants (p : Packet) : invariants p -> construct p = Ok p.
Proof. intros Hp. unfold construct. apply decide_True, Hp. Qed.

Lemma decode_be16 (x : Z) (rest : list Z) :
  decode (be16 x ++ rest)
  = (if (x =? types.ReadRequest) || (x =? types.WriteRequest)
     then decode_request x rest
     else if x =? types.DataPacket then decode_data rest
     else if x =? types.AcknowledgmentPacket then decode_acknowledgment rest
     else if x =? types.ErrorPacket then decode_error rest
     else if x =? types.OptionAcknowledgmentPacket
     then decode_option_acknowledgment rest
     else Err (Decoding UnknownOpcode)).
Proof. unfold be16. simpl. rewrite be16_value. reflexivity. Qed.

Lemma request_options_no_null (r : Request.t) :
  Forall text (Request.OptionsNames r) ->
  Forall text (Request.OptionsValues r) ->
  Forall pair_no_null (request_options r).
Proof.
  intros Hn Hv. unfold request_options. apply Forall_forall. intros [n v] Hin.
  apply elem_of_zip_with in Hin as (n' & v' & Heq & Hn' & Hv').
  inversion Heq; subst n' v'.
  rewrite Forall_forall in Hn, Hv.
  split; simpl; [apply (Hn n Hn') | apply (Hv v Hv')].
Qed.

Lemma decode_request_wire (r : Request.t) :
  paired r -> request_invariants r -> known_mode (Request.Mode r) ->
  decode_request (Request.Type_ r)
    (cstring (Request.Filename r) ++ cstring (Request.Mode r)
     ++ options_bytes (request_options r))
  = Ok (PRequest r).
Proof.
  intros Hp Hinv Hmode.
  pose proof Hinv as (Hty & [_ [_ Hfn]] & [_ [_ Hm]] & Hdup & Hn & Hv).
  unfold decode_request.
  rewrite (take_cstring_cstring _ _ Hfn), (take_cstring_cstring _ _ Hm).
  rewrite decide_True by exact Hmode.
  rewrite parse_pairs_options by (apply request_options_no_null; assumption).
  unfold request_options, paired in *. simpl.
  rewrite fst_zip, snd_zip by lia.
  rewrite decide_True by exact Hdup.
  destruct r as [ty fn mode names values]. simpl in *.
  apply construct_invariants. exact Hinv.
Qed.

Lemma decode_option_acknowledgment_wire (o : OptionAcknowledgment.t) :
  option_acknowledgment_invariants o ->
  exists o' : OptionAcknowledgment.t,
    decode_option_acknowledgment
      (options_bytes (unordered_map.entries (OptionAcknowledgment.Options o)))
    = Ok (POptionAcknowledgment o')
    /\ unordered_map.entries (OptionAcknowledgment.Options o')
       = unordered_map.entries (OptionAcknowledgment.Options o).
Proof.
  intros Hinv. unfold decode_option_acknowledgment.
  rewrite parse_pairs_options.
  2:{ unfold option_acknowledgment_invariants in Hinv.
      eapply Forall_impl; [exact Hinv|].
      intros kv [[_ Hk] [_ Hv]]. split; assumption. }
  simpl.
  destruct (decide (NoDup (unordered_map.entries (OptionAcknowledgment.Options o)).*1))
    as [unique|Hdup].
  - eexists. split; [apply construct_invariants; exact Hinv | reflexivity].
  - destruct Hdup. apply unordered_map.entries_unique.
Qed.

Lemma encode_wire (p : Packet) :
  typed p -> parallel_options p -> encode p = Done (wire p).
Proof.
  intros Ht Hp. unfold encode, run. rewrite serialize_run by exact Hp.
  simpl. rewrite layout_little_endian by exact Ht. reflexivity.
Qed.

(** ** The decoder on the scenarios of the specification *)

Lemma take_cstring_shorter (bs rest : list Z) (s : string) :
  take_cstring bs = Some (s, rest) -> (length rest < length bs)%nat.
Proof.
  revert s rest. induction bs as [|b bs IH]; intros s rest; simpl.
  - discriminate.
  - destruct (b =? 0).
    + intros [= <- <-]. lia.
    + destruct (take_cstring bs) as [[s' rest']|]; [|discriminate].
      intros [= <- <-]. specialize (IH s' rest' eq_refl). lia.
Qed.

(** The rounds given to [parse_pairs] never run out: any larger number of
    rounds gives the same result. *)
Lemma parse_pairs_rounds_enough (fuel : nat) (bs : list Z) :
  (length bs <= fuel)%nat ->
  parse_pairs_rounds fuel bs = parse_pairs bs.
Proof.
  unfold parse_pairs. remember (length bs) as n eqn:Hn.
  assert (Hle : (length bs <= n)%nat) by lia. clear Hn.
  revert bs fuel Hle. induction n as [|n IH]; intros bs fuel Hle Hfuel.
  - destruct bs; [|simpl in Hle; lia]. destruct fuel; reflexivity.
  - destruct bs as [|b bs]; [destruct fuel; reflexivity|].
    destruct fuel as [|fuel]; [simpl in Hfuel; lia|].
    unfold parse_pairs_rounds; fold parse_pairs_rounds.
    destruct (take_cstring (b :: bs)) as [[name rest]|] eqn:Hname; [|reflexivity].
    destruct (take_cstring rest) as [[value rest']|] eqn:Hvalue; [|reflexivity].
    apply take_cstring_shorter in Hname, Hvalue. simpl in Hname, Hle, Hfuel.
    rewrite (IH rest' fuel) by lia. reflexivity.
Qed.

(** A Data header with no payload is a valid, empty final block; a packet cut
    after its opcode is truncated. *)
Example decode_data_header_only :
  decode [0x00; 0x03; 0x00; 0x01] = Ok (PData (Data.mk 1 []))
  /\ decode [0x00; 0x03] = Err (Decoding TruncatedPacket).
Proof. split; reflexivity. Qed.

Lemma packet_eq_refl (p : Packet) : packet_eq p p.
Proof. destruct p; simpl; auto. Qed.

(** C3 (as amended). For every packet of any variant that is well formed
    (its 16-bit fields and payload bytes in the range of their types, its
    two option vectors of one length if it is a Request, the invariants of
    section 3) and whose mode, if it is a Request, is "netascii" or "octet"
    in any letter case, the encoder on a little-endian host returns the
    wire bytes of the packet and the decoder of the specification, run on
    them, yields a packet equal to it, the option collections being
    compared as mappings. *)
Theorem decode_encode_round_trip (p : Packet) :
  well_formed p ->
  accepted_mode p ->
  exists (bytes : list Z) (q : Packet),
    encode p = Done bytes
    /\ decode bytes = Ok q
    /\ packet_eq q p.
Proof.
  intros [Ht Hinv] Hmode. exists (wire p).
  assert (Hpar : parallel_options p) by (destruct p; simpl in *; tauto).
  rewrite (encode_wire p Ht Hpar).
  destruct p as [r|d|a|e|o]; unfold wire; simpl layout.
  - exists (PRequest r). split; [reflexivity|]. split; [|apply packet_eq_refl].
    unfold request_layout. rewrite decode_be16.
    destruct Ht as [_ Hp]. pose proof Hinv as (Hty & _).
    rewrite (proj2 (request_type_check _) Hty).
    apply decode_request_wire; assumption.
  - exists (PData d). split; [reflexivity|]. split; [|apply packet_eq_refl].
    unfold data_layout. rewrite decode_be16. simpl.
    destruct Hinv as [Hb Hl]. destruct d as [block payload]. simpl in *.
    unfold decode_data, be16. simpl.
    rewrite (proj2 (Nat.leb_le _ _) Hl), be16_value.
    apply construct_invariants. split; assumption.
  - exists (PAcknowledgment a). split; [reflexivity|]. split; [|apply packet_eq_refl].
    unfold acknowledgment_layout. rewrite decode_be16. simpl.
    destruct a as [block]. simpl in *. rewrite be16_value.
    apply construct_invariants. exact Hinv.
  - exists (PError e). split; [reflexivity|]. split; [|apply packet_eq_refl].
    unfold error_layout. rewrite decode_be16. simpl.
    pose proof Hinv as [Hc [_ Hm]]. destruct e as [code message]. simpl in *.
    unfold decode_error, be16. simpl. rewrite be16_value.
    rewrite (proj2 (Z.leb_le 0 code)), (proj2 (Z.leb_le code 8)) by lia. simpl.
    rewrite <- (app_nil_r (cstring message)), (take_cstring_cstring _ _ Hm).
    apply construct_invariants. exact Hinv.
  - destruct (decode_option_acknowledgment_wire o Hinv) as (o' & Hdec & Hentries).
    exists (POptionAcknowledgment o'). split; [reflexivity|]. split.
    + unfold option_acknowledgment_layout. rewrite decode_be16. simpl. exact Hdec.
    + simpl. unfold unordered_map.to_gmap. rewrite Hentries. reflexivity.
Qed.

Lemma decode_encode_round_trip_witness :
  exists (bytes : list Z) (q : Packet),
    encode (PRequest (Request.mk 1 "file.txt" "OCTET" ["blksize"%string] ["1024"%string]))
    = Done bytes
    /\ decode bytes = Ok q
    /\ packet_eq q
         (PRequest (Request.mk 1 "file.txt" "OCTET" ["blksize"%string] ["1024"%string])).
Proof.
  apply (decode_encode_round_trip
           (PRequest (Request.mk 1 "file.txt" "OCTET" ["blksize"%string] ["1024"%string]))).
  - split.
    + split; [unfold is_u16; simpl; lia | reflexivity].
    + apply (bool_decide_unpack _). vm_compute. exact I.
  - right. reflexivity.
Defined.

(** C3, as stated, fails three times. A read request in mode "mail" meets
    every invariant of section 3, is encoded, and the decoder rejects its
    bytes with [InvalidMode]. A read request with one option name and no
    option value meets every invariant of section 3, has a known mode, and
    is not encoded: [serialize] stops at its assertion. And what a
    big-endian host writes for Acknowledgment(5), 04 00 05 00, the decoder
    rejects with [UnknownOpcode]. *)
Lemma round_trip_fails_as_stated :
  (well_formed (PRequest (Request.mk types.ReadRequest "file.txt" "mail" [] []))
   /\ exists bytes : list Z,
        encode (PRequest (Request.mk types.ReadRequest "file.txt" "mail" [] []))
        = Done bytes
        /\ decode bytes = Err (Decoding InvalidMode))
  /\ (invariants
        (PRequest (Request.mk types.ReadRequest "file.txt" "octet" ["blksize"%string] []))
      /\ accepted_mode
           (PRequest (Request.mk types.ReadRequest "file.txt" "octet"
                        ["blksize"%string] []))
      /\ encode
           (PRequest (Request.mk types.ReadRequest "file.txt" "octet"
                        ["blksize"%string] []))
         = Abort AssertionFailed)
  /\ (well_formed (PAcknowledgment (Acknowledgment.mk 5))
      /\ run (serialize BigEndian (PAcknowledgment (Acknowledgment.mk 5)))
         = Done (4%nat, [0x04; 0x00; 0x05; 0x00])
      /\ decode [0x04; 0x00; 0x05; 0x00] = Err (Decoding UnknownOpcode)).
Proof.
  split; [|split].
  - split.
    + split.
      * split; [unfold is_u16, types.ReadRequest; simpl; lia | reflexivity].
      * apply (bool_decide_unpack _). vm_compute. exact I.
    + eexists. split; reflexivity.
  - split; [|split].
    + apply (bool_decide_unpack _). vm_compute. exact I.
    + right. reflexivity.
    + reflexivity.
  - split; [|split].
    + split; [unfold typed, is_u16; simpl; lia|].
      unfold invariants, acknowledgment_invariants. simpl. lia.
    + reflexivity.
    + reflexivity.
Qed.

(** * Further properties of the header *)

(** ** What the constructors let through *)

Lemma cpp_assert_done (c : bool) : cpp_assert c = Done tt -> c = true.
Proof. destruct c; [reflexivity | discriminate]. Qed.

(** X1. Both Error constructors return the packet holding their arguments
    for every code from 0 to 8, and stop at the assertion for every code
    above 8 (and below 0, which a 16-bit code never is). *)
Theorem Error_constructor_range (ErrorCode : Z) (ErrorMessage : string) :
  (0 <= ErrorCode <= 8 ->
     Error.new_view ErrorCode ErrorMessage = Done (Error.mk ErrorCode ErrorMessage)
     /\ Error.new_move ErrorCode ErrorMessage = Done (Error.mk ErrorCode ErrorMessage))
  /\ (ErrorCode < 0 \/ 8 < ErrorCode ->
        Error.new_view ErrorCode ErrorMessage = Abort AssertionFailed
        /\ Error.new_move ErrorCode ErrorMessage = Abort AssertionFailed).
Proof.
  unfold Error.new_view, Error.new_move. split; intros Hcode.
  - rewrite cpp_assert_true; [split; reflexivity|].
    apply andb_true_intro. split; [apply Z.leb_le | apply Z.leb_le]; lia.
  - rewrite cpp_assert_false; [split; reflexivity|].
    apply andb_false_iff. destruct Hcode as [Hlow|Hhigh].
    + left. apply Z.leb_gt. exact Hlow.
    + right. apply Z.leb_gt. exact Hhigh.
Qed.

Lemma Error_constructor_range_witness :
  (Error.new_view 8 "Wrong blocksize" = Done (Error.mk 8 "Wrong blocksize")
   /\ Error.new_move 8 "Wrong blocksize" = Done (Error.mk 8 "Wrong blocksize"))
  /\ (Error.new_view 9 "Wrong blocksize" = Abort AssertionFailed
      /\ Error.new_move 9 "Wrong blocksize" = Abort AssertionFailed).
Proof.
  split.
  - apply (proj1 (Error_constructor_range 8 "Wrong blocksize")). lia.
  - apply (proj2 (Error_constructor_range 9 "Wrong blocksize")). right. lia.
Defined.

Lemma Data_new_done (Block : Z) (Buffer : list Z) (d : Data.t) :
  Data.new_copy Block Buffer = Done d \/ Data.new_move Block Buffer = Done d ->
  d = Data.mk Block Buffer /\ 1 <= Block /\ (length Buffer <= 512)%nat.
Proof.
  unfold Data.new_copy, Data.new_move.
  destruct (cpp_assert (1 <=? Block)) as [[]|why] eqn:Hblock;
    [|intros [H|H]; discriminate H].
  destruct (cpp_assert ((0 <=? length Buffer)%nat && (length Buffer <=? 512)%nat))
    as [[]|why] eqn:Hsize; [|intros [H|H]; discriminate H].
  apply cpp_assert_done in Hblock, Hsize.
  apply Z.leb_le in Hblock. apply andb_true_iff in Hsize as [_ Hsize].
  apply Nat.leb_le in Hsize.
  intros [H|H]; simpl in H; injection H as <-; auto.
Qed.

(** X2. A Data packet that came out of either constructor holds the block
    and the payload it was given, its block is at least 1, and on either
    host [serialize] returns for it, writing as many bytes as it returns:
    the payload and four more, so between 4 and 516. *)
Theorem Data_constructed_size
    (host : byte_order) (Block : Z) (Buffer : list Z) (d : Data.t) :
  Data.new_copy Block Buffer = Done d \/ Data.new_move Block Buffer = Done d ->
  Data.getBlock d = Block
  /\ Data.getData d = Buffer
  /\ 1 <= Data.getBlock d
  /\ exists (size : nat) (bytes : list Z),
       run (Data.serialize host d) = Done (size, bytes)
       /\ length bytes = size
       /\ size = (4 + length Buffer)%nat
       /\ (4 <= size <= 516)%nat.
Proof.
  intros Hnew. apply Data_new_done in Hnew as (-> & Hblock & Hsize).
  repeat split; try assumption.
  exists (4 + length Buffer)%nat, (data_layout (u16_bytes host) (Data.mk Block Buffer)).
  split; [|split; [|split]].
  - unfold run. rewrite Data_serialize_run. reflexivity.
  - apply (length_layout (u16_bytes host) (PData (Data.mk Block Buffer))). reflexivity.
  - reflexivity.
  - lia.
Qed.

Lemma Data_constructed_size_witness :
  Data.getBlock (Data.mk 7 [1; 2; 3]) = 7
  /\ Data.getData (Data.mk 7 [1; 2; 3]) = [1; 2; 3]
  /\ 1 <= Data.getBlock (Data.mk 7 [1; 2; 3])
  /\ exists (size : nat) (bytes : list Z),
       run (Data.serialize BigEndian (Data.mk 7 [1; 2; 3])) = Done (size, bytes)
       /\ length bytes = size
       /\ size = (4 + length [1; 2; 3])%nat
       /\ (4 <= size <= 516)%nat.
Proof.
  apply (Data_constructed_size BigEndian 7 [1; 2; 3] (Data.mk 7 [1; 2; 3])).
  left. reflexivity.
Defined.

(** ** Reading a request back *)

Lemma Request_new_done (ty : Z) (fn mode : string) (names values : list string)
    (r : Request.t) :
  Request.new_view_options ty fn mode names values = Done r
  \/ Request.new_move_options ty fn mode names values = Done r ->
  r = Request.mk ty fn mode names values
  /\ (ty = types.ReadRequest \/ ty = types.WriteRequest).
Proof.
  intros Hnew.
  destruct (decide (ty = types.ReadRequest \/ ty = types.WriteRequest)) as [Hty|Hty].
  - destruct (Request_new_accepts ty fn mode names values Hty) as (_ & _ & Hv & Hm).
    split; [|exact Hty]. destruct Hnew as [Hnew|Hnew]; congruence.
  - destruct (Request_new_rejects ty fn mode names values Hty) as (_ & _ & Hv & Hm).
    destruct Hnew as [Hnew|Hnew]; congruence.
Qed.

(** X3. A request that came out of an option-taking constructor gives back,
    through its getters, the opcode, the filename and the mode it was built
    from; [getOptionName] and [getOptionValue] return the entry of their own
    vector at an index inside it and are out of range at any index beyond,
    each vector on its own: when the vectors differ in length, a name exists
    without a value or a value without a name. *)
Theorem Request_getters
    (ty : Z) (fn mode : string) (names values : list string) (r : Request.t) :
  Request.new_view_options ty fn mode names values = Done r
  \/ Request.new_move_options ty fn mode names values = Done r ->
  Request.getType r = ty
  /\ (Request.getType r = types.ReadRequest \/ Request.getType r = types.WriteRequest)
  /\ Request.getFilename r = fn
  /\ Request.getMode r = mode
  /\ (forall (Idx : nat) (n : string),
        Request.getOptionName r Idx = Done n <-> names !! Idx = Some n)
  /\ (forall (Idx : nat) (v : string),
        Request.getOptionValue r Idx = Done v <-> values !! Idx = Some v)
  /\ (forall Idx : nat,
        Request.getOptionName r Idx = Abort OutOfRange <-> (length names <= Idx)%nat)
  /\ (forall Idx : nat,
        Request.getOptionValue r Idx = Abort OutOfRange <-> (length values <= Idx)%nat).
Proof.
  intros Hnew. apply Request_new_done in Hnew as [-> Hty].
  unfold Request.getType, Request.getFilename, Request.getMode,
    Request.getOptionName, Request.getOptionValue, vector_at. simpl.
  repeat split; try reflexivity; try exact Hty.
  - destruct (names !! Idx); [intros [= ->]; reflexivity | discriminate].
  - intros ->. reflexivity.
  - destruct (values !! Idx); [intros [= ->]; reflexivity | discriminate].
  - intros ->. reflexivity.
  - destruct (names !! Idx) eqn:Hi; [discriminate|].
    intros _. apply lookup_ge_None. exact Hi.
  - intros Hge. rewrite (proj2 (lookup_ge_None names Idx) Hge). reflexivity.
  - destruct (values !! Idx) eqn:Hi; [discriminate|].
    intros _. apply lookup_ge_None. exact Hi.
  - intros Hge. rewrite (proj2 (lookup_ge_None values Idx) Hge). reflexivity.
Qed.

Lemma Request_getters_witness :
  Request.getOptionName (Request.mk 1 "f" "octet" ["tsize"; "blksize"]%string ["0"%string]) 1
  = Done "blksize"%string
  /\ Request.getOptionValue
       (Request.mk 1 "f" "octet" ["tsize"; "blksize"]%string ["0"%string]) 1
     = Abort OutOfRange.
Proof.
  destruct (Request_getters 1 "f" "octet" ["tsize"; "blksize"]%string ["0"%string]
              (Request.mk 1 "f" "octet" ["tsize"; "blksize"]%string ["0"%string])
              (or_introl eq_refl))
    as (_ & _ & _ & _ & Hname & _ & _ & Hvalue).
  split.
  - apply Hname. reflexivity.
  - apply Hvalue. simpl. lia.
Defined.

(** ** Option acknowledgments *)

(** X4. On a little-endian host [OptionAcknowledgment::serialize] writes
    00 06 and then, for each entry in iteration order, the name, 0x00, the
    value, 0x00, and returns 2 + Σ (|name| + |value| + 2), the number of
    bytes written; with no entry it writes the two opcode bytes alone. *)
Theorem OptionAcknowledgment_serialize_wire (o : OptionAcknowledgment.t) :
  run (OptionAcknowledgment.serialize LittleEndian o)
  = Done ((2 + options_size (unordered_map.entries (OptionAcknowledgment.Options o)))%nat,
          [0x00; 0x06]
          ++ options_bytes (unordered_map.entries (OptionAcknowledgment.Options o)))
  /\ length ([0x00; 0x06]
             ++ options_bytes (unordered_map.entries (OptionAcknowledgment.Options o)))
     = (2 + options_size (unordered_map.entries (OptionAcknowledgment.Options o)))%nat
  /\ (unordered_map.entries (OptionAcknowledgment.Options o) = [] ->
      run (OptionAcknowledgment.serialize LittleEndian o) = Done (2%nat, [0x00; 0x06])).
Proof.
  assert (Hrun : run (OptionAcknowledgment.serialize LittleEndian o)
                 = Done ((2 + options_size
                                (unordered_map.entries (OptionAcknowledgment.Options o)))%nat,
                         [0; 6] ++ options_bytes
                                     (unordered_map.entries
                                        (OptionAcknowledgment.Options o)))).
  { unfold run. rewrite OptionAcknowledgment_serialize_run.
    unfold option_acknowledgment_layout.
    rewrite u16_bytes_little_endian
      by (unfold is_u16, types.OptionAcknowledgmentPacket; lia).
    reflexivity. }
  split; [exact Hrun|]. split.
  - rewrite length_app, length_options_bytes. reflexivity.
  - intros Hempty. rewrite Hrun, Hempty. reflexivity.
Qed.

Lemma OptionAcknowledgment_serialize_wire_witness :
  run (OptionAcknowledgment.serialize LittleEndian
         (OptionAcknowledgment.mk (unordered_map.mk [] (NoDup_nil_2 (A := string)))))
  = Done (2%nat, [0x00; 0x06]).
Proof.
  apply (proj2 (proj2 (OptionAcknowledgment_serialize_wire
                         (OptionAcknowledgment.mk
                            (unordered_map.mk [] (NoDup_nil_2 (A := string))))))).
  reflexivity.
Defined.

(** Looking a key up in the entries is looking it up in the mapping. *)
Lemma find_in_list_to_map (Key : string) (es : list (string * string)) :
  unordered_map.find_in Key es = (list_to_map es : gmap string string) !! Key.
Proof.
  induction es as [|[k v] es IH]; simpl.
  - rewrite lookup_empty. reflexivity.
  - rewrite lookup_insert. destruct (decide (k = Key)); [reflexivity | exact IH].
Qed.

Lemma find_to_gmap (m : unordered_map.t) (Key : string) :
  unordered_map.find m Key = unordered_map.to_gmap m !! Key.
Proof. apply find_in_list_to_map. Qed.

(** X5. [hasOption] answers whether the name is a key of the table, and
    [getOptionValue] returns the value stored under a name exactly when the
    pair (name, value) is an entry of the table, which is when [serialize]
    writes it; for a name that [hasOption] denies, [getOptionValue] does not
    return. *)
Theorem OptionAcknowledgment_lookup (o : OptionAcknowledgment.t) (name : string) :
  (OptionAcknowledgment.hasOption o name = true
   <-> name ∈ (unordered_map.entries (OptionAcknowledgment.Options o)).*1)
  /\ (forall value : string,
        OptionAcknowledgment.getOptionValue o name = Done value
        <-> (name, value) ∈ unordered_map.entries (OptionAcknowledgment.Options o))
  /\ (OptionAcknowledgment.hasOption o name = false
      <-> OptionAcknowledgment.getOptionValue o name = Abort OutOfRange).
Proof.
  destruct o as [[es Hes]].
  unfold OptionAcknowledgment.hasOption, OptionAcknowledgment.getOptionValue,
    unordered_map.at_key, unordered_map.count.
  rewrite find_to_gmap. unfold unordered_map.to_gmap. simpl.
  split; [|split].
  - destruct (list_to_map es !! name) as [v|] eqn:Hlook; simpl.
    + split; [intros _|reflexivity].
      apply elem_of_list_to_map_2 in Hlook.
      apply list_elem_of_fmap. exists (name, v). split; [reflexivity | exact Hlook].
    + split; [discriminate|]. intros Hin.
      apply not_elem_of_list_to_map_2 in Hlook. contradiction.
  - intros value. rewrite (elem_of_list_to_map (M := gmap string) es name value Hes).
    destruct (list_to_map es !! name) as [v|]; split; congruence.
  - destruct (list_to_map es !! name) as [v|]; simpl; split; congruence.
Qed.

Lemma options_size_Permutation (os os' : list (string * string)) :
  os ≡ₚ os' -> options_size os = options_size os'.
Proof.
  induction 1 as [|o os os' _ IH|o o' os|os os' os'' _ IH1 _ IH2].
  - reflexivity.
  - rewrite !options_size_cons, IH. reflexivity.
  - rewrite !options_size_cons. lia.
  - congruence.
Qed.

Lemma options_bytes_Permutation (os os' : list (string * string)) :
  os ≡ₚ os' -> options_bytes os ≡ₚ options_bytes os'.
Proof. intros Hperm. unfold options_bytes. rewrite Hperm. reflexivity. Qed.

(** X6. Two option acknowledgments that hold the same mapping, whatever the
    order their tables iterate in, serialize to the same number of bytes on
    any host, and the bytes of one are a rearrangement of the bytes of the
    other. *)
Theorem OptionAcknowledgment_serialize_same_mapping
    (host : byte_order) (o o' : OptionAcknowledgment.t) :
  unordered_map.to_gmap (OptionAcknowledgment.Options o)
  = unordered_map.to_gmap (OptionAcknowledgment.Options o') ->
  exists (size : nat) (bytes bytes' : list Z),
    run (OptionAcknowledgment.serialize host o) = Done (size, bytes)
    /\ run (OptionAcknowledgment.serialize host o') = Done (size, bytes')
    /\ length bytes = size
    /\ length bytes' = size
    /\ bytes ≡ₚ bytes'.
Proof.
  destruct o as [[es Hes]], o' as [[es' Hes']]. unfold unordered_map.to_gmap. simpl.
  intros Hmap. apply (list_to_map_inj es es' Hes Hes') in Hmap.
  unfold run. rewrite !OptionAcknowledgment_serialize_run.
  unfold wire_size, option_acknowledgment_layout. simpl.
  exists (2 + options_size es)%nat. eexists. eexists.
  split; [reflexivity|]. split.
  - rewrite (options_size_Permutation es es' Hmap). reflexivity.
  - split; [|split].
    + simpl. rewrite length_options_bytes. reflexivity.
    + simpl. rewrite length_options_bytes, (options_size_Permutation es es' Hmap).
      reflexivity.
    + simpl. do 2 apply Permutation_skip. apply options_bytes_Permutation, Hmap.
Qed.

Lemma OptionAcknowledgment_lookup_witness :
  OptionAcknowledgment.hasOption
    (OptionAcknowledgment.mk
       (unordered_map.of_list [("blksize", "1024")]%string I))
    "blksize" = true
  /\ OptionAcknowledgment.getOptionValue
       (OptionAcknowledgment.mk
          (unordered_map.of_list [("blksize", "1024")]%string I))
       "tsize" = Abort OutOfRange.
Proof.
  split.
  - apply (proj1 (OptionAcknowledgment_lookup _ "blksize")).
    simpl. apply list_elem_of_here.
  - apply (proj2 (proj2 (OptionAcknowledgment_lookup _ "tsize"))).
    reflexivity.
Defined.

Lemma OptionAcknowledgment_serialize_same_mapping_witness :
  exists (size : nat) (bytes bytes' : list Z),
    run (OptionAcknowledgment.serialize LittleEndian
           (OptionAcknowledgment.mk
              (unordered_map.of_list [("blksize", "1024"); ("tsize", "0")]%string I)))
    = Done (size, bytes)
    /\ run (OptionAcknowledgment.serialize LittleEndian
              (OptionAcknowledgment.mk
                 (unordered_map.of_list [("tsize", "0"); ("blksize", "1024")]%string I)))
       = Done (size, bytes')
    /\ length bytes = size
    /\ length bytes' = size
    /\ bytes ≡ₚ bytes'.
Proof.
  apply (OptionAcknowledgment_serialize_same_mapping LittleEndian).
  unfold unordered_map.to_gmap. simpl.
  apply insert_insert_ne. discriminate.
Defined.

(** ** One encoding, one packet *)

Lemma char_to_u8_inj (c c' : ascii) : char_to_u8 c = char_to_u8 c' -> c = c'.
Proof.
  intros Heq. rewrite <- (u8_to_char_to_u8 c), <- (u8_to_char_to_u8 c'), Heq.
  reflexivity.
Qed.

Lemma string_bytes_inj (s s' : string) : string_bytes s = string_bytes s' -> s = s'.
Proof.
  revert s'. induction s as [|c s IH]; intros [|c' s']; try discriminate.
  - reflexivity.
  - rewrite !string_bytes_cons. intros [= Hc Hs].
    apply char_to_u8_inj in Hc. apply IH in Hs. congruence.
Qed.

(** A string without null byte ends at the first terminator: it can be told
    from whatever follows it. *)
Lemma cstring_app_inj (s s' : string) (rest rest' : list Z) :
  no_null s -> no_null s' ->
  cstring s ++ rest = cstring s' ++ rest' ->
  s = s' /\ rest = rest'.
Proof.
  unfold cstring. revert s'. induction s as [|c s IH]; intros [|c' s'] Hs Hs'.
  - simpl. intros [= ->]. split; reflexivity.
  - apply no_null_cons in Hs' as [Hc' _]. rewrite string_bytes_cons. simpl.
    intros [= Hc _]. congruence.
  - apply no_null_cons in Hs as [Hc _]. rewrite string_bytes_cons. simpl.
    intros [= Hc' _]. congruence.
  - apply no_null_cons in Hs as [_ Hs]. apply no_null_cons in Hs' as [_ Hs'].
    rewrite !string_bytes_cons. simpl. intros [= Hc Htail].
    apply char_to_u8_inj in Hc. destruct (IH s' Hs Hs' Htail) as [-> ->].
    subst c'. split; reflexivity.
Qed.

Lemma options_bytes_inj (os os' : list (string * string)) :
  Forall pair_no_null os -> Forall pair_no_null os' ->
  options_bytes os = options_bytes os' ->
  os = os'.
Proof.
  revert os'. induction os as [|[n v] os IH]; intros [|[n' v'] os'] Hos Hos'.
  - reflexivity.
  - rewrite options_bytes_cons. unfold cstring at 1.
    destruct (string_bytes (n', v').1); discriminate.
  - rewrite options_bytes_cons. unfold cstring at 1.
    destruct (string_bytes (n, v).1); discriminate.
  - apply Forall_cons in Hos as [[Hn Hv] Hos].
    apply Forall_cons in Hos' as [[Hn' Hv'] Hos'].
    rewrite !options_bytes_cons. simpl in *. intros Heq.
    apply cstring_app_inj in Heq as [-> Heq]; [|assumption..].
    apply cstring_app_inj in Heq as [-> Heq]; [|assumption..].
    rewrite (IH os' Hos Hos' Heq). reflexivity.
Qed.

Lemma zip_no_null (names values : list string) :
  Forall no_null names -> Forall no_null values ->
  Forall pair_no_null (zip names values).
Proof.
  intros Hn Hv. apply Forall_forall. intros [n v] Hin.
  apply elem_of_zip_with in Hin as (n' & v' & Heq & Hn' & Hv').
  inversion Heq; subst n' v'.
  rewrite Forall_forall in Hn, Hv.
  split; simpl; [apply (Hn n Hn') | apply (Hv v Hv')].
Qed.

Lemma zip_inj (names names' values values' : list string) :
  length names = length values -> length names' = length values' ->
  zip names values = zip names' values' ->
  names = names' /\ values = values'.
Proof.
  intros Hl Hl' Hzip. split.
  - rewrite <- (fst_zip names values), <- (fst_zip names' values') by lia.
    rewrite Hzip. reflexivity.
  - rewrite <- (snd_zip names values), <- (snd_zip names' values') by lia.
    rewrite Hzip. reflexivity.
Qed.

(** The two bytes of a 16-bit field determine it, on either host. *)
Lemma u16_bytes_inj (host : byte_order) (x y : Z) :
  is_u16 x -> is_u16 y -> u16_bytes host x = u16_bytes host y -> x = y.
Proof.
  intros Hx Hy. destruct host.
  - rewrite !u16_bytes_little_endian by assumption. unfold be16.
    intros [= Hhi Hlo]. rewrite <- (be16_value x), <- (be16_value y). congruence.
  - rewrite !u16_bytes_big_endian by assumption.
    intros [= Hlo Hhi]. rewrite <- (be16_value x), <- (be16_value y). congruence.
Qed.

Lemma u16_field_inj (host : byte_order) (x y : Z) (rest rest' : list Z) :
  is_u16 x -> is_u16 y ->
  u16_bytes host x ++ rest = u16_bytes host y ++ rest' ->
  x = y /\ rest = rest'.
Proof.
  intros Hx Hy Heq. apply app_inj_1 in Heq as [Hfield Hrest]; [|reflexivity].
  split; [apply (u16_bytes_inj host); assumption | exact Hrest].
Qed.

Lemma opcode_is_u16 :
  is_u16 types.ReadRequest /\ is_u16 types.WriteRequest /\ is_u16 types.DataPacket
  /\ is_u16 types.AcknowledgmentPacket /\ is_u16 types.ErrorPacket
  /\ is_u16 types.OptionAcknowledgmentPacket.
Proof. unfold is_u16. repeat split; vm_compute; congruence. Qed.

Lemma typed_parallel_options (p : Packet) : typed p -> parallel_options p.
Proof. destruct p; simpl; tauto. Qed.

Lemma getType_is_u16 (p : Packet) : typed p -> is_u16 (getType p).
Proof.
  destruct p as [r|d|a|e|o]; simpl; intros Ht;
    [apply Ht | apply opcode_is_u16 ..].
Qed.

(** Every layout starts with the opcode field. *)
Lemma layout_opcode (host : byte_order) (p : Packet) :
  layout (u16_bytes host) p
  = u16_bytes host (getType p) ++ drop 2 (layout (u16_bytes host) p).
Proof. destruct p; reflexivity. Qed.

(** Packets of two classes differ in the opcode. *)
Ltac opcode_clash Hop :=
  exfalso;
  unfold Request.getType, Data.getType, Data.Type_, Acknowledgment.getType,
    Acknowledgment.Type_, Error.getType, Error.Type_, OptionAcknowledgment.getType,
    OptionAcknowledgment.Type_, types.ReadRequest, types.WriteRequest, types.DataPacket,
    types.AcknowledgmentPacket, types.ErrorPacket, types.OptionAcknowledgmentPacket in *;
  first [ discriminate Hop
        | match goal with
          | H : (_ \/ _) /\ _ |- _ => destruct H as [[?|?] _]; lia
          end ].

(** X7. On either host, two packets whose delimited strings hold no null
    byte (filename, mode and options of a request with a request opcode,
    options of an option acknowledgment) and that [serialize] turns into the
    same bytes are the same packet: same class, same fields, and for an
    option acknowledgment the same entries in the same order. *)
Theorem serialize_unambiguous
    (host : byte_order) (p q : Packet) (size size' : nat) (bytes : list Z) :
  typed p -> typed q ->
  delimited p -> delimited q ->
  run (serialize host p) = Done (size, bytes) ->
  run (serialize host q) = Done (size', bytes) ->
  same_packet p q.
Proof.
  intros Htp Htq Hdp Hdq. unfold run.
  rewrite !serialize_run by (apply typed_parallel_options; assumption).
  intros [= _ <-] [= _ Heq]. symmetry in Heq.
  assert (Hop : getType p = getType q).
  { rewrite (layout_opcode host p), (layout_opcode host q) in Heq.
    apply u16_field_inj in Heq as [Hop _]; auto using getType_is_u16. }
  destruct p as [r|d|a|e|o], q as [r'|d'|a'|e'|o']; simpl in Hop, Hdp, Hdq, Htp, Htq;
    try (opcode_clash Hop); clear Hop; simpl in Heq;
    unfold request_layout, data_layout, acknowledgment_layout, error_layout,
      option_acknowledgment_layout in Heq.
  - destruct Hdp as (_ & Hfn & Hm & Hn & Hv), Hdq as (_ & Hfn' & Hm' & Hn' & Hv').
    destruct Htp as [Hty Hp], Htq as [Hty' Hp'].
    apply u16_field_inj in Heq as [Heqty Heq]; [|assumption..].
    apply cstring_app_inj in Heq as [Hfile Heq]; [|assumption..].
    apply cstring_app_inj in Heq as [Hmode Heq]; [|assumption..].
    apply options_bytes_inj in Heq; [|apply zip_no_null; assumption..].
    apply zip_inj in Heq as [Hnames Hvalues]; [|assumption..].
    destruct r, r'. simpl in *. congruence.
  - destruct Htp as [Hb _], Htq as [Hb' _].
    apply u16_field_inj in Heq as [_ Heq]; [|apply opcode_is_u16..].
    apply u16_field_inj in Heq as [Hblock Hpayload]; [|assumption..].
    destruct d, d'. simpl in *. congruence.
  - apply u16_field_inj in Heq as [_ Heq]; [|apply opcode_is_u16..].
    apply u16_bytes_inj in Heq; [|assumption..].
    destruct a, a'. simpl in *. congruence.
  - apply u16_field_inj in Heq as [_ Heq]; [|apply opcode_is_u16..].
    apply u16_field_inj in Heq as [Hcode Hmsg]; [|assumption..].
    unfold cstring in Hmsg. apply app_inj_tail in Hmsg as [Hmsg _].
    apply string_bytes_inj in Hmsg.
    destruct e, e'. simpl in *. congruence.
  - apply u16_field_inj in Heq as [_ Heq]; [|apply opcode_is_u16..].
    apply options_bytes_inj in Heq; assumption.
Qed.

Lemma serialize_unambiguous_witness :
  same_packet
    (PRequest (Request.mk 1 "f" "octet" ["tsize"%string] ["0"%string]))
    (PRequest (Request.mk 1 "f" "octet" ["tsize"%string] ["0"%string])).
Proof.
  apply (serialize_unambiguous LittleEndian
           (PRequest (Request.mk 1 "f" "octet" ["tsize"%string] ["0"%string]))
           (PRequest (Request.mk 1 "f" "octet" ["tsize"%string] ["0"%string]))
           18%nat 18%nat
           [0; 1; 102; 0; 111; 99; 116; 101; 116; 0; 116; 115; 105; 122; 101; 0; 48; 0]).
  - split; [unfold is_u16; simpl; lia | reflexivity].
  - split; [unfold is_u16; simpl; lia | reflexivity].
  - apply (bool_decide_unpack _). vm_compute. exact I.
  - apply (bool_decide_unpack _). vm_compute. exact I.
  - reflexivity.
  - reflexivity.
Defined.

(** ** Null bytes inside a string *)

Lemma string_bytes_append (s s' : string) :
  string_bytes (String.append s s') = string_bytes s ++ string_bytes s'.
Proof.
  induction s as [|c s IH]; [reflexivity|].
  change (String.append (String c s) s') with (String c (String.append s s')).
  rewrite !string_bytes_cons, IH. reflexivity.
Qed.

Lemma cstring_absorb_option (mode name value : string) :
  cstring (absorb_option mode name value)
  = cstring mode ++ cstring name ++ cstring value.
Proof.
  unfold absorb_option, cstring.
  rewrite string_bytes_append, string_bytes_cons, string_bytes_append, string_bytes_cons.
  change (char_to_u8 zero) with 0.
  rewrite <- !app_assoc. simpl. rewrite <- !app_assoc. reflexivity.
Qed.

Lemma length_absorb_option (mode name value : string) :
  String.length (absorb_option mode name value)
  = (String.length mode + String.length name + String.length value + 2)%nat.
Proof.
  pose proof (f_equal (@length Z) (cstring_absorb_option mode name value)) as Hlen.
  rewrite !length_app, !length_cstring in Hlen. lia.
Qed.

(** X8. [serialize] copies a null byte found inside a string like any other
    byte, so the encoding of a request does not tell where its strings end:
    on either host, a request with a first option (name, value) and the
    request that has this option moved into its mode string, behind null
    bytes, are both constructed, differ, and serialize to the same bytes
    with the same returned size. *)
Theorem Request_serialize_embedded_null
    (host : byte_order) (ty : Z) (fn mode name value : string)
    (names values : list string) :
  ty = types.ReadRequest \/ ty = types.WriteRequest ->
  length names = length values ->
  Request.new_move_options ty fn mode (name :: names) (value :: values)
  = Done (Request.mk ty fn mode (name :: names) (value :: values))
  /\ Request.new_move_options ty fn (absorb_option mode name value) names values
     = Done (Request.mk ty fn (absorb_option mode name value) names values)
  /\ Request.mk ty fn mode (name :: names) (value :: values)
     <> Request.mk ty fn (absorb_option mode name value) names values
  /\ run (Request.serialize host (Request.mk ty fn mode (name :: names) (value :: values)))
     = run (Request.serialize host
              (Request.mk ty fn (absorb_option mode name value) names values))
  /\ exists (size : nat) (bytes : list Z),
       run (Request.serialize host
              (Request.mk ty fn mode (name :: names) (value :: values)))
       = Done (size, bytes).
Proof.
  intros Hty Hlen.
  destruct (Request_new_accepts ty fn mode (name :: names) (value :: values) Hty)
    as (_ & _ & _ & Hfirst).
  destruct (Request_new_accepts ty fn (absorb_option mode name value) names values Hty)
    as (_ & _ & _ & Hsecond).
  split; [exact Hfirst|]. split; [exact Hsecond|]. split.
  - intros Heq. apply (f_equal Request.OptionsNames) in Heq. simpl in Heq.
    apply (f_equal (@length string)) in Heq. simpl in Heq. lia.
  - unfold run. rewrite !Request_serialize_run by (unfold paired; simpl; lia).
    split; [|eexists; eexists; reflexivity].
    unfold wire_size, request_layout, request_options. simpl.
    rewrite options_bytes_cons, options_size_cons, cstring_absorb_option,
      length_absorb_option.
    simpl. f_equal. f_equal; [lia|]. rewrite <- !app_assoc. reflexivity.
Qed.

Lemma Request_serialize_embedded_null_witness :
  run (Request.serialize LittleEndian
         (Request.mk 1 "f" "octet" ["tsize"%string] ["0"%string]))
  = run (Request.serialize LittleEndian
           (Request.mk 1 "f" (absorb_option "octet" "tsize" "0") [] [])).
Proof.
  destruct (Request_serialize_embedded_null LittleEndian 1 "f" "octet" "tsize" "0" [] []
              (or_introl eq_refl) eq_refl)
    as (_ & _ & _ & Hsame & _).
  exact Hsame.
Defined.

(** ** The byte order of the host *)

Lemma layout_big_endian (p : Packet) :
  typed p -> layout (u16_bytes BigEndian) p = layout le16 p.
Proof.
  pose proof opcode_is_u16 as (_ & _ & Hd & Ha & He & Ho).
  destruct p as [r|d|a|e|o]; simpl;
    unfold request_layout, data_layout, acknowledgment_layout, error_layout,
      option_acknowledgment_layout, le16; intros Ht;
    rewrite !u16_bytes_big_endian by (assumption || apply Ht); reflexivity.
Qed.

Lemma layout_opcode_first (w16 : Z -> list Z) (p : Packet) :
  (forall x, length (w16 x) = 2%nat) ->
  layout w16 p = w16 (getType p) ++ drop 2 (layout w16 p).
Proof.
  intros Hw. destruct p as [r|d|a|e|o]; simpl;
    unfold request_layout, data_layout, acknowledgment_layout, error_layout,
      option_acknowledgment_layout;
    rewrite drop_app_length' by (symmetry; apply Hw); reflexivity.
Qed.

(** X9. [serialize] leaves the byte order to [htons], and reads its result
    low byte first. For every packet whose 16-bit fields and payload bytes
    are in the range of their types, whose two option vectors, if it is a
    Request, have one length, and whose opcode is proper (1 to 255, as all
    constructed packets have), a little-endian host emits the wire format,
    every 16-bit field big-endian, starting with 00 and the opcode; a
    big-endian host emits the same number of bytes with every 16-bit field
    low byte first, starting with the opcode and 00, which is not the wire
    format. *)
Theorem serialize_host_byte_order (p : Packet) :
  typed p ->
  1 <= getType p <= 255 ->
  run (serialize LittleEndian p) = Done (wire_size p, wire p)
  /\ run (serialize BigEndian p) = Done (wire_size p, layout le16 p)
  /\ (exists rest rest' : list Z,
        wire p = 0 :: getType p :: rest
        /\ layout le16 p = getType p :: 0 :: rest'
        /\ length rest = length rest')
  /\ wire p <> layout le16 p.
Proof.
  intros Ht Hop.
  assert (Hparts : wire p = 0 :: getType p :: drop 2 (wire p)
                   /\ layout le16 p = getType p :: 0 :: drop 2 (layout le16 p)).
  { unfold wire. split.
    - rewrite (layout_opcode_first be16 p) at 1 by reflexivity.
      rewrite be16_small by lia. reflexivity.
    - rewrite (layout_opcode_first le16 p) at 1 by reflexivity.
      unfold le16. rewrite Z.div_small, Z.mod_small by lia. reflexivity. }
  destruct Hparts as [Hwire Hle].
  split; [|split; [|split]].
  - unfold run. rewrite serialize_run by (apply typed_parallel_options, Ht).
    simpl. rewrite layout_little_endian by exact Ht. reflexivity.
  - unfold run. rewrite serialize_run by (apply typed_parallel_options, Ht).
    simpl. rewrite layout_big_endian by exact Ht. reflexivity.
  - exists (drop 2 (wire p)), (drop 2 (layout le16 p)).
    split; [exact Hwire|]. split; [exact Hle|].
    rewrite !length_drop. unfold wire.
    rewrite !length_layout by reflexivity. reflexivity.
  - rewrite Hwire, Hle. intros [= Hzero _]. lia.
Qed.

Lemma serialize_host_byte_order_witness :
  run (serialize BigEndian (PData (Data.mk 258 [7])))
  = Done (wire_size (PData (Data.mk 258 [7])), layout le16 (PData (Data.mk 258 [7]))).
Proof.
  apply (serialize_host_byte_order (PData (Data.mk 258 [7]))).
  - split; [unfold is_u16; simpl; lia|].
    apply Forall_cons. split; [unfold is_u8; lia | apply Forall_nil_2].
  - unfold getType, Data.getType, Data.Type_, types.DataPacket. lia.
Defined.

(** ** Requests without options, and terminators *)

Lemma Request_new_plain_done (ty : Z) (fn mode : string) (r : Request.t) :
  Request.new_view ty fn mode = Done r \/ Request.new_move ty fn mode = Done r ->
  r = Request.mk ty fn mode [] []
  /\ (ty = types.ReadRequest \/ ty = types.WriteRequest).
Proof.
  intros Hnew.
  destruct (decide (ty = types.ReadRequest \/ ty = types.WriteRequest)) as [Hty|Hty].
  - destruct (Request_new_accepts ty fn mode [] [] Hty) as (Hv & Hm & _).
    split; [|exact Hty]. destruct Hnew as [Hnew|Hnew]; congruence.
  - destruct (Request_new_rejects ty fn mode [] [] Hty) as (Hv & Hm & _).
    destruct Hnew as [Hnew|Hnew]; congruence.
Qed.

(** X10. A request that came out of a three-argument constructor has no
    option, so the assertion of [serialize] holds for it: on a little-endian
    host [serialize] returns |filename| + |mode| + 4 and writes 00, the
    opcode, the filename, 0x00, the mode, 0x00, whatever the two strings
    are; and both option getters are out of range at every index. *)
Theorem Request_plain_serialize (ty : Z) (fn mode : string) (r : Request.t) :
  Request.new_view ty fn mode = Done r \/ Request.new_move ty fn mode = Done r ->
  run (Request.serialize LittleEndian r)
  = Done ((String.length fn + String.length mode + 4)%nat,
          [0; ty] ++ string_bytes fn ++ [0] ++ string_bytes mode ++ [0])
  /\ forall Idx : nat,
       Request.getOptionName r Idx = Abort OutOfRange
       /\ Request.getOptionValue r Idx = Abort OutOfRange.
Proof.
  intros Hnew. apply Request_new_plain_done in Hnew as [-> Hty]. split.
  - unfold run. rewrite Request_serialize_run by reflexivity.
    unfold request_layout, request_options, wire_size, cstring.
    cbn [Request.Type_ Request.Filename Request.Mode
         Request.OptionsNames Request.OptionsValues].
    rewrite u16_bytes_little_endian
      by (unfold is_u16, types.ReadRequest, types.WriteRequest in *; lia).
    rewrite be16_small
      by (unfold types.ReadRequest, types.WriteRequest in *; lia).
    unfold options_size, options_bytes. simpl.
    rewrite app_nil_r, <- !app_assoc. simpl. f_equal. f_equal. lia.
  - intros Idx. split; reflexivity.
Qed.

Lemma Request_plain_serialize_witness :
  run (Request.serialize LittleEndian (Request.mk 2 "a" "mail" [] []))
  = Done ((String.length "a" + String.length "mail" + 4)%nat,
          [0; 2] ++ string_bytes "a" ++ [0] ++ string_bytes "mail" ++ [0]).
Proof.
  apply (proj1 (Request_plain_serialize 2 "a" "mail" (Request.mk 2 "a" "mail" [] [])
                  (or_introl eq_refl))).
Defined.

Lemma count_null_options_bytes (os : list (string * string)) :
  Forall pair_no_null os ->
  count_occ Z.eq_dec (options_bytes os) 0 = (2 * length os)%nat.
Proof.
  induction 1 as [|[n v] os [Hn Hv] _ IH]; [reflexivity|].
  rewrite options_bytes_cons, !count_occ_app, IH. simpl fst; simpl snd.
  rewrite (count_null_cstring n Hn), (count_null_cstring v Hv). simpl. lia.
Qed.

Lemma options_bytes_terminated (os : list (string * string)) (front : list Z) :
  exists init : list Z, front ++ [0] ++ options_bytes os = init ++ [0].
Proof.
  revert front. induction os as [|[n v] os IH]; intros front.
  - exists front. unfold options_bytes. simpl. reflexivity.
  - destruct (IH (front ++ [0] ++ string_bytes n ++ [0] ++ string_bytes v))
      as [init Hinit].
    exists init. rewrite <- Hinit, options_bytes_cons. unfold cstring. simpl.
    rewrite <- !app_assoc. simpl. rewrite <- !app_assoc. reflexivity.
Qed.

(** X11. For a request whose option vectors have one length and whose
    strings hold no null byte, on either host, what [serialize] writes after
    the two opcode bytes holds exactly one null byte per string, that is
    2 + 2 * (number of options) of them, and the last byte written is a
    terminator. *)
Theorem Request_serialize_terminators (host : byte_order) (r : Request.t) :
  length (Request.OptionsNames r) = length (Request.OptionsValues r) ->
  no_null (Request.Filename r) ->
  no_null (Request.Mode r) ->
  Forall no_null (Request.OptionsNames r) ->
  Forall no_null (Request.OptionsValues r) ->
  exists (size : nat) (bytes init : list Z),
    run (Request.serialize host r) = Done (size, bytes)
    /\ count_occ Z.eq_dec (drop 2 bytes) 0
       = (2 + 2 * length (Request.OptionsNames r))%nat
    /\ bytes = init ++ [0].
Proof.
  intros Hp Hfn Hm Hn Hv.
  destruct (options_bytes_terminated (request_options r)
              (u16_bytes host (Request.Type_ r) ++ cstring (Request.Filename r)
               ++ string_bytes (Request.Mode r))) as [init Hinit].
  exists (wire_size (PRequest r)), (request_layout (u16_bytes host) r), init.
  split; [|split].
  - unfold run. rewrite Request_serialize_run by exact Hp. reflexivity.
  - unfold request_layout. rewrite drop_app_length' by reflexivity.
    rewrite !count_occ_app, (count_null_cstring _ Hfn), (count_null_cstring _ Hm).
    rewrite count_null_options_bytes by (apply zip_no_null; assumption).
    rewrite length_request_options by exact Hp. lia.
  - rewrite <- Hinit. unfold request_layout, cstring.
    rewrite <- !app_assoc. reflexivity.
Qed.

Lemma Request_serialize_terminators_witness :
  exists (size : nat) (bytes init : list Z),
    run (Request.serialize LittleEndian
           (Request.mk 1 "f" "octet" ["tsize"%string] ["0"%string]))
    = Done (size, bytes)
    /\ count_occ Z.eq_dec (drop 2 bytes) 0
       = (2 + 2 * length ["tsize"%string])%nat
    /\ bytes = init ++ [0].
Proof.
  apply (Request_serialize_terminators LittleEndian
           (Request.mk 1 "f" "octet" ["tsize"%string] ["0"%string])).
  - reflexivity.
  - apply (bool_decide_unpack _). vm_compute. exact I.
  - apply (bool_decide_unpack _). vm_compute. exact I.
  - apply (bool_decide_unpack _). vm_compute. exact I.
  - apply (bool_decide_unpack _). vm_compute. exact I.
Defined.
